(** * A shallow embedding of the FastAPI demo application [main.py]

    The application keeps an in-memory registry of items ([items_db], a
    Python [dict] from generated identifiers to item records, themselves
    [dict]s) and a directory [uploads] of uploaded files.  Twelve handlers are
    registered on a router, in source order.

    Modelling choices:
    - a Python [dict] is a [gmap] with [string] keys (no claim below depends
      on the iteration order of a dict);
    - a Python [str] is a [string] (a sequence of 8-bit characters), [bytes]
      is a [list byte], [float] is a binary64 [float];
    - handlers run in a state-and-exception monad over [World]; an exception
      leaves the world as it was when it was raised, as in Python;
    - [uuid.uuid4()] consumes one 16-byte draw of the operating system's
      random source, given as the sequence [os_urandom];
    - the directory [uploads] is either absent or a flat directory of regular
      files, in which the names [.] and [..] denote directories as in every
      directory; whether the file system accepts a new entry name is left to
      the oracle [creatable];
    - the router tries the routes in registration order and takes the first
      one whose path pattern and method both match. *)

From Stdlib Require Import Floats NArith ZArith Strings.Byte Ascii String.
From stdpp Require Import gmap strings list fin_maps.

Local Open Scope string_scope.

(** ** Strings, as Python's [str] methods use them *)

(** [c in s] for a one-character [c]. *)
Fixpoint contains_char (c : ascii) (s : string) : bool :=
  match s with
  | EmptyString => false
  | String a s' => if Ascii.eqb a c then true else contains_char c s'
  end.

(** [s.split(sep)] for a one-character separator: never an empty list. *)
Fixpoint split_on (sep : ascii) (s : string) : list string :=
  match s with
  | EmptyString => [EmptyString]
  | String a s' =>
      if Ascii.eqb a sep then EmptyString :: split_on sep s'
      else match split_on sep s' with
           | [] => [String a EmptyString]
           | h :: t => String a h :: t
           end
  end.

(** [l[-1]], with a default for the empty list, which [split] never returns. *)
Definition last_item (l : list string) : string := List.last l EmptyString.

(** [s.lower()], on the ASCII letters. *)
Definition lower_char (a : ascii) : ascii :=
  let n := nat_of_ascii a in
  if (65 <=? n)%nat && (n <=? 90)%nat then ascii_of_nat (n + 32) else a.

Fixpoint lower (s : string) : string :=
  match s with
  | EmptyString => EmptyString
  | String a s' => String (lower_char a) (lower s')
  end.

(** [s.startswith(p)] and [needle in hay]. *)
Fixpoint starts_with (p s : string) : bool :=
  match p, s with
  | EmptyString, _ => true
  | String a p', String b s' => Ascii.eqb a b && starts_with p' s'
  | String _ _, EmptyString => false
  end.

Fixpoint str_in (needle hay : string) : bool :=
  starts_with needle hay ||
  match hay with
  | EmptyString => false
  | String _ hay' => str_in needle hay'
  end.

(** The characters that delimit path segments and file extensions. *)
Definition separator (c : ascii) : bool :=
  Ascii.eqb c "/" || Ascii.eqb c ".".

(** ** [uuid.uuid4()] and [str] of a UUID *)

(** The 128-bit integer of a version-4 UUID built from 16 random bytes:
    the variant and version bits are forced, as [uuid.UUID.__init__] does. *)
Definition uuid4_int (r : N) : N :=
  let i := (r mod 2 ^ 128)%N in
  let i := N.ldiff i (N.shiftl 0xc000 48) in
  let i := N.lor i (N.shiftl 0x8000 48) in
  let i := N.ldiff i (N.shiftl 0xf000 64) in
  N.lor i (N.shiftl 4 76).

Definition hex_char (d : N) : ascii :=
  match String.get (N.to_nat d) "0123456789abcdef" with
  | Some a => a
  | None => "0"%char
  end.

(** The [k] low hexadecimal digits of [n], most significant first, put in
    front of [acc]. *)
Fixpoint hex_digits (k : nat) (n : N) (acc : string) : string :=
  match k with
  | O => acc
  | S k' => hex_digits k' (n / 16)%N (String (hex_char (n mod 16)%N) acc)
  end.

(** ['%032x' % n] *)
Definition hex32 (n : N) : string := hex_digits 32 n EmptyString.

(** [str(u)]: the digits in groups of 8-4-4-4-12. *)
Definition uuid_str (n : N) : string :=
  let h := hex32 n in
  substring 0 8 h +:+ "-" +:+ substring 8 4 h +:+ "-" +:+
  substring 12 4 h +:+ "-" +:+ substring 16 4 h +:+ "-" +:+ substring 20 12 h.

(** ** Values and records *)

(** JSON-like Python values, as request bodies and handler results; every
    number is a binary64 float. *)
#[warnings="-register-all"]
Inductive value : Type :=
  | VNone
  | VBool (b : bool)
  | VFloat (f : float)
  | VStr (s : string)
  | VList (l : list value)
  | VDict (d : gmap string value).

(** What [json.dumps(..., allow_nan=False)], with which the framework
    renders the value a handler returns, accepts: every value that holds no
    infinite float and no NaN. *)
Fixpoint json_encodable (v : value) : bool :=
  match v with
  | VFloat f => PrimFloat.is_finite f
  | VList l => forallb json_encodable l
  | VDict d => map_fold (λ _ v' acc, json_encodable v' && acc) true d
  | _ => true
  end.

(** [class Item(BaseModel)], after validation. *)
Record Item := {
  name : string;
  description : option string;
  price : float;
  tax : option float
}.

(** [item.model_dump()]: every field, the unset optional ones as [None]. *)
Definition model_dump (item : Item) : gmap string value :=
  <["name" := VStr (name item)]>
  (<["description" := from_option VStr VNone (description item)]>
  (<["price" := VFloat (price item)]>
  (<["tax" := from_option VFloat VNone (tax item)]> ∅))).

(** [{"id": item_id, **d}]: the keys of [d] are written after ["id"]. *)
Definition with_id (item_id : string) (d : gmap string value) : gmap string value :=
  d ∪ {["id" := VStr item_id]}.

(** [for key, value in item.items(): existing_item[key] = value] *)
Definition assign_all (item existing_item : gmap string value) : gmap string value :=
  map_fold (λ key v acc, <[key := v]> acc) existing_item item.

(** An uploaded file: [file.filename] and the result of [file.read()]. *)
Record UploadFile := {
  filename : string;
  content : list byte
}.

(** [file.filename.split('.')[-1] if '.' in file.filename else ''] *)
Definition file_ext (fname : string) : string :=
  if contains_char "." fname then last_item (split_on "." fname) else "".

(** The extension in the specification's words: what follows the last dot,
    and nothing when there is no dot.  [after_last_dot s None] scans [s]
    and restarts the candidate at every dot. *)
Fixpoint after_last_dot (s : string) (seen : option string) : option string :=
  match s with
  | EmptyString => seen
  | String a s' =>
      if Ascii.eqb a "." then after_last_dot s' (Some s')
      else after_last_dot s' seen
  end.

Definition ext_spec (fname : string) : string :=
  default "" (after_last_dot fname None).

(** [os.path.join(a, b)] on POSIX. *)
Definition os_path_join (a b : string) : string :=
  if starts_with "/" b then b
  else if String.eqb a "" then b
  else if String.eqb (substring (String.length a - 1) 1 a) "/" then a +:+ b
  else a +:+ "/" +:+ b.

(** The two names that denote a directory in every directory. *)
Definition is_dot (entry : string) : bool :=
  String.eqb entry "." || String.eqb entry "..".

(** The entry names under which a path below a directory denotes a
    directory and no file: the empty one (the directory itself) and the two
    dots. *)
Definition names_directory (entry : string) : bool :=
  String.eqb entry "" || is_dot entry.

(** The entry name of a path below the directory [uploads]. *)
Definition in_uploads (path : string) : option string :=
  if starts_with "uploads/" path
  then Some (substring 8 (String.length path - 8) path)
  else None.

(** ** The world and the monad of handlers *)

Record World := {
  items_db : gmap string (gmap string value);
  uploads : option (gmap string (list byte));
  draws : nat
}.

Inductive exn :=
  | HTTPException (status_code : Z) (detail : string)
  | RequestValidationError
  | AttributeError (attr : string)
  | TypeError
  | ValueError
  | FileNotFoundError (path : string)
  | NotADirectoryError (path : string)
  | IsADirectoryError (path : string)
  | OSError (path : string).

Inductive outcome (A : Type) :=
  | Ret (a : A)
  | Raise (e : exn).
Arguments Ret {A} a.
Arguments Raise {A} e.

Definition M (A : Type) : Type := World → outcome A * World.

#[global] Instance M_ret : MRet M := λ A a w, (Ret a, w).
#[global] Instance M_bind : MBind M := λ A B f m w,
  match m w with
  | (Ret a, w') => f a w'
  | (Raise e, w') => (Raise e, w')
  end.

Definition raise {A} (e : exn) : M A := λ w, (Raise e, w).

(** [try: m  except FileNotFoundError: h] *)
Definition except_FileNotFoundError {A} (m h : M A) : M A := λ w,
  match m w with
  | (Raise (FileNotFoundError _), w') => h w'
  | r => r
  end.

Definition get_items_db : M (gmap string (gmap string value)) :=
  λ w, (Ret (items_db w), w).

Definition set_items_db (db : gmap string (gmap string value)) : M unit :=
  λ w, (Ret tt, {| items_db := db; uploads := uploads w; draws := draws w |}).

(** [v.lower()] needs a [str], [v >= p] a number. *)
Definition as_str (v : value) : M string :=
  match v with
  | VStr s => mret s
  | _ => raise (AttributeError "lower")
  end.

Definition as_float (v : value) : M float :=
  match v with
  | VFloat f => mret f
  | _ => raise TypeError
  end.

(** [d.attr] on a [dict]: a dict has its entries as keys, never as
    attributes, so the access raises whatever the dict holds. *)
Definition getattr_dict (d : gmap string value) (attr : string) : M value :=
  raise (AttributeError attr).

(** ** The HTTP surface *)

Inductive Method := GET | POST | PUT | PATCH | DELETE.

Inductive Endpoint :=
  | EP_read_root
  | EP_read_items
  | EP_read_item
  | EP_search_items
  | EP_create_item
  | EP_update_item
  | EP_patch_item
  | EP_delete_item
  | EP_upload_file
  | EP_download_file
  | EP_list_files
  | EP_upload_multiple_files.

(** The decorators of [main.py], in source order.  The documentation pages
    that the framework registers by itself, and its redirection of a path
    that only differs by a trailing slash, are left out: they touch neither
    the registry nor the uploads. *)
Definition routes : list (Method * string * Endpoint) :=
  [ (GET, "/", EP_read_root);
    (GET, "/items", EP_read_items);
    (GET, "/items/{item_id}", EP_read_item);
    (GET, "/items/search", EP_search_items);
    (POST, "/items", EP_create_item);
    (PUT, "/items/{item_id}", EP_update_item);
    (PATCH, "/items/{item_id}", EP_patch_item);
    (DELETE, "/items/{item_id}", EP_delete_item);
    (POST, "/upload", EP_upload_file);
    (GET, "/download/{filename}", EP_download_file);
    (GET, "/files", EP_list_files);
    (POST, "/upload-multiple", EP_upload_multiple_files) ].

Definition Method_eqb (a b : Method) : bool :=
  match a, b with
  | GET, GET | POST, POST | PUT, PUT | PATCH, PATCH | DELETE, DELETE => true
  | _, _ => false
  end.

(** A pattern segment [{name}] stands for one non-empty path segment. *)
Definition is_param (seg : string) : bool := starts_with "{" seg.

Fixpoint match_segments (pat path : list string) : option (list string) :=
  match pat, path with
  | [], [] => Some []
  | p :: pat', s :: path' =>
      if is_param p then
        if String.eqb s "" then None else cons s <$> match_segments pat' path'
      else if String.eqb p s then match_segments pat' path'
      else None
  | _, _ => None
  end.

(** The values of the path parameters, when [path] matches [pattern]. *)
Definition path_match (pattern path : string) : option (list string) :=
  match_segments (split_on "/" pattern) (split_on "/" path).

Inductive resolution :=
  | Matched (ep : Endpoint) (params : list string)
  | MethodNotAllowed
  | NoRoute.

(** The first route that matches path and method wins; a route that matches
    the path only is remembered and answers 405 when no route matches fully. *)
Fixpoint resolve (rs : list (Method * string * Endpoint)) (m : Method)
    (path : string) (partial : bool) : resolution :=
  match rs with
  | [] => if partial then MethodNotAllowed else NoRoute
  | (m', pattern, ep) :: rs' =>
      match path_match pattern path with
      | Some params =>
          if Method_eqb m m' then Matched ep params
          else resolve rs' m path true
      | None => resolve rs' m path partial
      end
  end.

(** A request body as the framework hands it to a handler: a JSON document
    that validates against [Item], a JSON object taken as a plain [dict], or
    the files of a multipart form. *)
Inductive Body :=
  | NoBody
  | ItemBody (item : Item)
  | DictBody (d : gmap string value)
  | FileBody (file : UploadFile)
  | FilesBody (files : list UploadFile).

Record Request := {
  req_method : Method;
  req_path : string;
  query_name : option string;
  query_min_price : option float;
  req_body : Body
}.

(** [FileResponse(path=..., media_type=..., filename=...)] *)
Record FileResponse := {
  fr_path : string;
  fr_media_type : string;
  fr_filename : string
}.

Inductive returned :=
  | RJson (v : value)
  | RFile (r : FileResponse).

Inductive Response :=
  | JSONResponse (status : Z) (body : value)
  | FileBytes (media_type suggested_name : string) (body : list byte)
  | UnprocessableEntity
  | InternalServerError.

(** [Query(None, min_length=1, max_length=50)] and [Query(None, ge=0)] *)
Definition valid_search_query (name : option string) (min_price : option float) : bool :=
  from_option (λ n, (1 <=? String.length n)%nat && (String.length n <=? 50)%nat) true name
  && from_option (λ p, PrimFloat.leb 0 p) true min_price.

(** Fixtures used to run the model on concrete inputs. *)
Definition widget : Item :=
  {| name := "Widget"; description := Some "a widget"; price := 10%float;
     tax := Some 2%float |}.

Definition widget_bare : Item :=
  {| name := "Gadget"; description := None; price := 12%float; tax := None |}.

Definition report_pdf : UploadFile :=
  {| filename := "report.pdf"; content := [x25; x50; x44; x46]%byte |}.

Definition notes_txt : UploadFile :=
  {| filename := "notes.v2.txt"; content := [x68; x69]%byte |}.

Definition notes_slashed : UploadFile :=
  {| filename := "notes.a/b"; content := [x6e; x6f]%byte |}.

Definition no_slash (entry : string) : bool := negb (contains_char "/" entry).

Definition counting_urandom (n : nat) : N := (N.of_nat n * 7919 + 11)%N.

Definition empty_world : World :=
  {| items_db := ∅; uploads := None; draws := 0 |}.

Definition first_id : string := uuid_str (uuid4_int (counting_urandom 0)).

Definition request (m : Method) (path : string) (body : Body) : Request :=
  {| req_method := m; req_path := path; query_name := None;
     query_min_price := None; req_body := body |}.

Definition create_widget : Request := request POST "/items" (ItemBody widget).

Definition rename_id : Request :=
  request PATCH ("/items/" +:+ first_id) (DictBody {["id" := VStr "other"]}).

(** The widget as stored under [first_id], with its [id] overwritten. *)
Definition renamed_record : gmap string value :=
  <["id" := VStr "other"]> (with_id first_id (model_dump widget)).

Definition search_widget : Request :=
  {| req_method := GET; req_path := "/items/search";
     query_name := Some "widget"; query_min_price := None;
     req_body := NoBody |}.

Definition widget_record : gmap string value := with_id "k1" (model_dump widget).

Definition widget_world : World :=
  {| items_db := {["k1" := widget_record]}; uploads := None; draws := 0 |}.

Definition new_price : gmap string value := {["price" := VFloat 12]}.

Definition one_file_world : World :=
  {| items_db := ∅; uploads := Some {["a.txt" := [x68; x69]%byte]};
     draws := 0 |}.

Section App.

(** The [n]-th 16-byte draw of the random source, as an integer. *)
Variable os_urandom : nat → N.

(** Whether the file system accepts to create an entry of that name. *)
Variable creatable : string → bool.

(** ** The environment: random identifiers and the directory [uploads] *)

(** [str(uuid.uuid4())] *)
Definition uuid4 : M string := λ w,
  (Ret (uuid_str (uuid4_int (os_urandom (draws w)))),
   {| items_db := items_db w; uploads := uploads w; draws := S (draws w) |}).

(** [os.makedirs("uploads", exist_ok=True)] *)
Definition makedirs_uploads : M unit := λ w,
  (Ret tt,
   {| items_db := items_db w; uploads := Some (default ∅ (uploads w));
      draws := draws w |}).

(** A flat directory has no entry whose name holds a slash, and none of the
    empty name; the file system decides on the other names. *)
Definition accepts (entry : string) : bool :=
  negb (String.eqb entry "") && negb (contains_char "/" entry)
  && creatable entry.

(** The exception of [open(path, "wb")] for an entry that is not accepted,
    as Linux reports it for the names the handlers build: a NUL character is
    refused by Python itself; a name that ends in a slash asks to create a
    directory entry; below a name that is a regular file nothing can be
    opened, and below a name that does not exist nothing can be found; any
    other refusal (a name too long, a full disk) is a plain [OSError]. *)
Definition open_error (entry : string) (dir : gmap string (list byte))
    (path : string) : exn :=
  if contains_char "000" path then ValueError
  else if String.eqb entry "" then IsADirectoryError path
  else if contains_char "/" entry then
    match split_on "/" entry with
    | first :: rest =>
        if forallb (String.eqb "") rest then IsADirectoryError path
        else if bool_decide (is_Some (dir !! first)) then NotADirectoryError path
        else FileNotFoundError path
    | [] => FileNotFoundError path
    end
  else OSError path.

(** [with open(path, "wb") as buffer: buffer.write(data)]: the entry is
    created or truncated. *)
Definition open_wb_write (path : string) (data : list byte) : M unit := λ w,
  match in_uploads path, uploads w with
  | Some entry, Some dir =>
      if accepts entry
      then (Ret tt,
            {| items_db := items_db w; uploads := Some (<[entry := data]> dir);
               draws := draws w |})
      else (Raise (open_error entry dir path), w)
  | _, _ => (Raise (FileNotFoundError path), w)
  end.

(** [os.path.exists(path)], for a path of one entry name below [uploads]:
    once the directory exists, so do [uploads/], [uploads/.] and
    [uploads/..]. *)
Definition os_path_exists (path : string) : M bool := λ w,
  (Ret match in_uploads path, uploads w with
       | Some entry, Some dir =>
           names_directory entry || bool_decide (is_Some (dir !! entry))
       | _, _ => false
       end, w).

(** [os.listdir("uploads")] *)
Definition listdir_uploads : M (list string) := λ w,
  match uploads w with
  | Some dir => (Ret (map_to_list dir).*1, w)
  | None => (Raise (FileNotFoundError "uploads"), w)
  end.

(** The bytes the framework sends for a [FileResponse]: those of a regular
    file; it gives up on a path that is missing or is a directory. *)
Definition read_bytes (path : string) (w : World) : option (list byte) :=
  match in_uploads path, uploads w with
  | Some entry, Some dir =>
      if names_directory entry then None else dir !! entry
  | _, _ => None
  end.

(** ** The handlers of [main.py] *)

Definition read_root : M value :=
  mret (VDict {["Hello" := VStr "World"]}).

Definition read_items : M value :=
  db ← get_items_db;
  mret (VList (VDict <$> (map_to_list db).*2)).

Definition read_item (item_id : string) : M value :=
  db ← get_items_db;
  match db !! item_id with
  | None => raise (HTTPException 404 "Item not found")
  | Some item => mret (VDict item)
  end.

(** The condition of the comprehension in [search_items]; [and] and [or]
    evaluate their right operand only when needed. *)
Definition search_condition (name : option string) (min_price : option float)
    (item : gmap string value) : M bool :=
  by_name ← match name with
            | None => mret true
            | Some n =>
                v ← getattr_dict item "name";
                s ← as_str v;
                mret (str_in (lower n) (lower s))
            end;
  if by_name : bool then
    match min_price with
    | None => mret true
    | Some p =>
        v ← getattr_dict item "price";
        f ← as_float v;
        mret (PrimFloat.leb p f)
    end
  else mret false.

Fixpoint filter_items (name : option string) (min_price : option float)
    (items : list (gmap string value)) : M (list value) :=
  match items with
  | [] => mret []
  | item :: rest =>
      keep ← search_condition name min_price item;
      filtered ← filter_items name min_price rest;
      mret (if keep : bool then VDict item :: filtered else filtered)
  end.

Definition search_items (name : option string) (min_price : option float) : M value :=
  db ← get_items_db;
  filtered_items ← filter_items name min_price (map_to_list db).*2;
  mret (VList filtered_items).

Definition create_item (item : Item) : M value :=
  item_id ← uuid4;
  db ← get_items_db;
  set_items_db (<[item_id := with_id item_id (model_dump item)]> db);;
  mret (VDict (with_id item_id (model_dump item))).

Definition update_item (item_id : string) (item : Item) : M value :=
  db ← get_items_db;
  match db !! item_id with
  | None => raise (HTTPException 404 "Item not found")
  | Some _ =>
      let updated_item := with_id item_id (model_dump item) in
      set_items_db (<[item_id := updated_item]> db);;
      mret (VDict updated_item)
  end.

(** [existing_item] is the stored dict itself: assigning its keys changes the
    record held by [items_db]. *)
Definition patch_item (item_id : string) (item : gmap string value) : M value :=
  db ← get_items_db;
  match db !! item_id with
  | None => raise (HTTPException 404 "Item not found")
  | Some existing_item =>
      let existing_item := assign_all item existing_item in
      set_items_db (<[item_id := existing_item]> db);;
      mret (VDict existing_item)
  end.

Definition delete_item (item_id : string) : M value :=
  db ← get_items_db;
  match db !! item_id with
  | None => raise (HTTPException 404 "Item not found")
  | Some _ =>
      set_items_db (delete item_id db);;
      mret (VDict {["message" := VStr "Item deleted successfully"]})
  end.

Definition upload_file (file : UploadFile) : M value :=
  makedirs_uploads;;
  let ext := file_ext (filename file) in
  token ← uuid4;
  let unique_filename := token +:+ "." +:+ ext in
  let file_path := os_path_join "uploads" unique_filename in
  open_wb_write file_path (content file);;
  mret (VDict (<["filename" := VStr unique_filename]>
               (<["original_filename" := VStr (filename file)]>
               (<["message" := VStr "File uploaded successfully"]> ∅)))).

Definition download_file (fname : string) : M FileResponse :=
  let file_path := os_path_join "uploads" fname in
  found ← os_path_exists file_path;
  if found : bool then
    mret {| fr_path := file_path; fr_media_type := "application/octet-stream";
            fr_filename := fname |}
  else raise (HTTPException 404 "File not found").

Definition list_files : M value :=
  except_FileNotFoundError
    (files ← listdir_uploads;
     mret (VDict {["files" := VList (VStr <$> files)]}))
    (mret (VDict {["files" := VList []]})).

(** The loop of [upload_multiple_files], with its accumulator. *)
Fixpoint upload_each (files : list UploadFile) (uploaded_files : list value)
    : M (list value) :=
  match files with
  | [] => mret uploaded_files
  | file :: rest =>
      let ext := file_ext (filename file) in
      token ← uuid4;
      let unique_filename := token +:+ "." +:+ ext in
      let file_path := os_path_join "uploads" unique_filename in
      open_wb_write file_path (content file);;
      upload_each rest
        (uploaded_files ++
         [VDict (<["filename" := VStr unique_filename]>
                 (<["original_filename" := VStr (filename file)]> ∅))])
  end.

Definition upload_multiple_files (files : list UploadFile) : M value :=
  makedirs_uploads;;
  uploaded_files ← upload_each files [];
  mret (VDict {["uploaded_files" := VList uploaded_files]}).

(** An answer of [upload_file] without its message: the entry that
    [upload_multiple_files] reports for the same file. *)
Definition without_message (answer : value) : value :=
  match answer with
  | VDict d => VDict (delete "message" d)
  | v => v
  end.

(** SaveMultiple in the specification's words: Save applied to each file of
    the sequence, in order, with one result per file; the first failure ends
    the batch. *)
Fixpoint save_each (files : list UploadFile) : M (list value) :=
  match files with
  | [] => mret []
  | file :: rest =>
      answer ← upload_file file;
      entries ← save_each rest;
      mret (without_message answer :: entries)
  end.

(** ** Dispatch *)

Definition json (m : M value) : M returned := v ← m; mret (RJson v).

(** The framework binds path, query and body parameters, answers 422 when
    they do not validate, and calls the handler. *)
Definition call_endpoint (ep : Endpoint) (params : list string) (req : Request)
    : M returned :=
  let param := default "" (head params) in
  match ep, req_body req with
  | EP_read_root, _ => json read_root
  | EP_read_items, _ => json read_items
  | EP_read_item, _ => json (read_item param)
  | EP_search_items, _ =>
      if valid_search_query (query_name req) (query_min_price req)
      then json (search_items (query_name req) (query_min_price req))
      else raise RequestValidationError
  | EP_create_item, ItemBody item => json (create_item item)
  | EP_update_item, ItemBody item => json (update_item param item)
  | EP_patch_item, DictBody d => json (patch_item param d)
  | EP_delete_item, _ => json (delete_item param)
  | EP_upload_file, FileBody file => json (upload_file file)
  | EP_download_file, _ => r ← download_file param; mret (RFile r)
  | EP_list_files, _ => json list_files
  | EP_upload_multiple_files, FilesBody (file :: files) =>
      json (upload_multiple_files (file :: files))
  | _, _ => raise RequestValidationError
  end.

Definition detail (msg : string) : value := VDict {["detail" := VStr msg]}.

(** What the client receives for the outcome of a handler.  A returned
    value that cannot be encoded as JSON, and a file that cannot be read,
    end in an exception of the framework, hence in a 500. *)
Definition render (o : outcome returned) (w : World) : Response :=
  match o with
  | Ret (RJson v) =>
      if json_encodable v then JSONResponse 200 v else InternalServerError
  | Ret (RFile r) =>
      match read_bytes (fr_path r) w with
      | Some data => FileBytes (fr_media_type r) (fr_filename r) data
      | None => InternalServerError
      end
  | Raise (HTTPException status msg) => JSONResponse status (detail msg)
  | Raise RequestValidationError => UnprocessableEntity
  | Raise _ => InternalServerError
  end.

Definition handle (req : Request) (w : World) : Response * World :=
  match resolve routes (req_method req) (req_path req) false with
  | Matched ep params =>
      let (o, w') := call_endpoint ep params req w in (render o w', w')
  | MethodNotAllowed => (JSONResponse 405 (detail "Method Not Allowed"), w)
  | NoRoute => (JSONResponse 404 (detail "Not Found"), w)
  end.

(** The worlds the server can be in: the process starts with an empty
    registry, on any file system, and serves one request after the other. *)
Inductive reachable : World → Prop :=
  | reachable_start w : items_db w = ∅ → reachable w
  | reachable_handle req w : reachable w → reachable (handle req w).2.

(** The name under which a file is stored when the identifier comes from
    draw number [n], and the names of a batch whose first draw is [n]. *)
Definition stored_name (n : nat) (file : UploadFile) : string :=
  uuid_str (uuid4_int (os_urandom n)) +:+ "." +:+ file_ext (filename file).

Fixpoint stored_names (n : nat) (files : list UploadFile) : list string :=
  match files with
  | [] => []
  | file :: rest => stored_name n file :: stored_names (S n) rest
  end.

(** One entry of the answer of [upload_multiple_files]. *)
Definition uploaded_entry (stored : string) (file : UploadFile) : value :=
  VDict (<["filename" := VStr stored]>
         (<["original_filename" := VStr (filename file)]> ∅)).

(** The answer of [upload_file]. *)
Definition uploaded_answer (stored : string) (file : UploadFile) : value :=
  VDict (<["filename" := VStr stored]>
         (<["original_filename" := VStr (filename file)]>
         (<["message" := VStr "File uploaded successfully"]> ∅))).

(** The world after serving the requests of a list, one after the other. *)
Definition serve_all (reqs : list Request) (w : World) : World :=
  foldl (λ w req, (handle req w).2) w reqs.

(** Whether a request body is a plain dict with the key [id]. *)
Definition names_id (body : Body) : bool :=
  match body with
  | DictBody d => bool_decide (is_Some (d !! "id"))
  | _ => false
  end.

(** The ways in which serving one request, of body [body], can change the
    registry. *)
Inductive registry_step (body : Body) (db : gmap string (gmap string value))
    : gmap string (gmap string value) → Prop :=
  | step_same : registry_step body db db
  | step_create n item :
      registry_step body db
        (<[uuid_str n := with_id (uuid_str n) (model_dump item)]> db)
  | step_replace key old item :
      db !! key = Some old →
      registry_step body db (<[key := with_id key (model_dump item)]> db)
  | step_patch key old d :
      body = DictBody d →
      db !! key = Some old →
      registry_step body db (<[key := assign_all d old]> db)
  | step_delete key : registry_step body db (delete key db).

(** The registry invariant of the specification: every stored item has a
    non-empty [id] that equals its key. *)
Definition id_is_key (db : gmap string (gmap string value)) : Prop :=
  ∀ key item, db !! key = Some item → item !! "id" = Some (VStr key) ∧ key ≠ "".

(** The same, decided on a concrete registry. *)
Definition id_matches (key : string) (item : gmap string value) : bool :=
  match item !! "id" with
  | Some (VStr s) => String.eqb s key && negb (String.eqb key "")
  | _ => false
  end.

Definition id_is_keyb (db : gmap string (gmap string value)) : bool :=
  forallb (λ kv, id_matches kv.1 kv.2) (map_to_list db).

(** The result of Search in the specification's words, on the stored
    records: an item is kept when its name contains [name] whatever the case
    and its price is at least [min_price], for the filters that are given. *)
Definition search_keeps (name : option string) (min_price : option float)
    (item : gmap string value) : bool :=
  from_option (λ n, match item !! "name" with
                    | Some (VStr s) => str_in (lower n) (lower s)
                    | _ => false
                    end) true name
  && from_option (λ p, match item !! "price" with
                       | Some (VFloat f) => PrimFloat.leb p f
                       | _ => false
                       end) true min_price.

Definition search_spec (name : option string) (min_price : option float)
    (db : gmap string (gmap string value)) : list value :=
  VDict <$> List.filter (search_keeps name min_price) (map_to_list db).*2.

(** Unfolding the monad around the registry handlers, and around the
    file handlers. *)
Ltac run :=
  unfold read_item, update_item, patch_item, delete_item, create_item,
    json, raise, get_items_db, set_items_db, uuid4, mbind, M_bind, mret, M_ret;
  cbn.

Ltac run_fs :=
  unfold upload_file, download_file, list_files, upload_multiple_files,
    makedirs_uploads, open_wb_write, os_path_exists, listdir_uploads,
    except_FileNotFoundError, read_bytes,
    json, raise, uuid4, mbind, M_bind, mret, M_ret;
  cbn.

(** ** Facts about strings *)

Lemma length_app_string (s t : string) :
  String.length (s +:+ t) = (String.length s + String.length t)%nat.
Proof. induction s as [|a s IH]; simpl; [done | by rewrite IH]. Qed.

Lemma length_substring (a b : nat) (s : string) :
  (a + b ≤ String.length s)%nat → String.length (substring a b s) = b.
Proof.
  revert a b. induction s as [|c s IH]; intros a b Hle; simpl in Hle.
  - assert (a = 0 ∧ b = 0) as [-> ->] by lia. done.
  - destruct a as [|a]; simpl.
    + destruct b as [|b]; simpl; [done|]. rewrite (IH 0 b); [done | lia].
    + apply IH. lia.
Qed.

Lemma substring_all (s : string) : substring 0 (String.length s) s = s.
Proof. induction s as [|c s IH]; simpl; [done | by rewrite IH]. Qed.

Lemma contains_char_app (c : ascii) (s t : string) :
  contains_char c (s +:+ t) = contains_char c s || contains_char c t.
Proof.
  induction s as [|a s IH]; simpl; [done|]. by destruct (Ascii.eqb a c).
Qed.

Lemma contains_char_substring (c : ascii) (a b : nat) (s : string) :
  contains_char c s = false → contains_char c (substring a b s) = false.
Proof.
  revert a b. induction s as [|x s IH]; intros a b H.
  - by destruct a, b.
  - simpl in H. destruct (Ascii.eqb x c) eqn:E; [done|].
    destruct a as [|a]; simpl.
    + destruct b as [|b]; simpl; [done|]. rewrite E. by apply IH.
    + by apply IH.
Qed.

Lemma split_on_cons (sep : ascii) (s : string) :
  ∃ h t, split_on sep s = h :: t.
Proof.
  induction s as [|a s (h & t & IH)]; simpl; [by eauto|].
  destruct (Ascii.eqb a sep); [by eauto|]. rewrite IH. by eauto.
Qed.

Lemma split_on_no_sep (sep : ascii) (s : string) :
  contains_char sep s = false → split_on sep s = [s].
Proof.
  induction s as [|a s IH]; simpl; [done|].
  destruct (Ascii.eqb a sep); [done|]. intros H. by rewrite IH.
Qed.

Lemma split_on_two (sep : ascii) (s : string) :
  contains_char sep s = true → ∃ h x t, split_on sep s = h :: x :: t.
Proof.
  induction s as [|a s IH]; simpl; [done|].
  destruct (Ascii.eqb a sep).
  - intros _. destruct (split_on_cons sep s) as (h & t & ->). by eauto.
  - intros H. destruct (IH H) as (h & x & t & ->). by eauto.
Qed.

Lemma last_item_cons (h x : string) (t : list string) :
  last_item (h :: x :: t) = last_item (x :: t).
Proof. done. Qed.

(** Splitting at the separator drops everything up to the last one. *)
Lemma last_split_app (sep : ascii) (pre suf : string) :
  last_item (split_on sep (pre +:+ String sep suf)) = last_item (split_on sep suf).
Proof.
  induction pre as [|a pre IH]; simpl.
  - rewrite Ascii.eqb_refl.
    destruct (split_on_cons sep suf) as (h & t & ->). apply last_item_cons.
  - destruct (Ascii.eqb a sep).
    + destruct (split_on_cons sep (pre +:+ String sep suf)) as (h & t & E).
      rewrite E in IH |- *. by rewrite last_item_cons.
    + destruct (split_on_two sep (pre +:+ String sep suf)) as (h & x & t & E).
      { rewrite contains_char_app. simpl. rewrite Ascii.eqb_refl.
        apply orb_true_r. }
      rewrite E in IH |- *. by rewrite !last_item_cons in *.
Qed.

Lemma file_ext_no_dot (fname : string) :
  contains_char "." fname = false → file_ext fname = "".
Proof. unfold file_ext. by intros ->. Qed.

Lemma file_ext_after_last_dot (pre suf : string) :
  contains_char "." suf = false → file_ext (pre +:+ "." +:+ suf) = suf.
Proof.
  intros H. unfold file_ext.
  change (pre +:+ "." +:+ suf) with (pre +:+ String "."%char suf).
  rewrite contains_char_app. simpl. rewrite orb_true_r.
  rewrite (last_split_app "." pre suf), split_on_no_sep; done.
Qed.

Lemma after_last_dot_split (s : string) (seen : option string) :
  after_last_dot s seen =
  if contains_char "." s then Some (last_item (split_on "." s)) else seen.
Proof.
  revert seen. induction s as [|a s IH]; intros seen; simpl; [done|].
  destruct (Ascii.eqb a ".") eqn:E.
  - rewrite IH. destruct (contains_char "." s) eqn:C.
    + destruct (split_on_cons "." s) as (h & t & ->). done.
    + by rewrite split_on_no_sep.
  - rewrite IH. destruct (contains_char "." s) eqn:C; [|done].
    destruct (split_on_two "." s C) as (h & x & t & ->). done.
Qed.

(** The extension computed by the handlers is the one of the specification. *)
Lemma file_ext_ext_spec (fname : string) : file_ext fname = ext_spec fname.
Proof.
  unfold file_ext, ext_spec. rewrite after_last_dot_split.
  by destruct (contains_char "." fname).
Qed.

(** ** Facts about generated identifiers *)

Lemma length_hex_digits (k : nat) (n : N) (acc : string) :
  String.length (hex_digits k n acc) = (k + String.length acc)%nat.
Proof.
  revert n acc. induction k as [|k IH]; intros n acc; simpl; [done|].
  rewrite IH. simpl. lia.
Qed.

Lemma length_uuid_str (n : N) : String.length (uuid_str n) = 36.
Proof.
  unfold uuid_str. cbv zeta.
  assert (String.length (hex32 n) = 32) as H
    by (unfold hex32; by rewrite length_hex_digits).
  rewrite !length_app_string, !length_substring by (rewrite H; lia). done.
Qed.

Lemma hex_char_cases (d : N) :
  hex_char d ∈ ["0"; "1"; "2"; "3"; "4"; "5"; "6"; "7"; "8"; "9";
                "a"; "b"; "c"; "d"; "e"; "f"]%char.
Proof.
  unfold hex_char. generalize (N.to_nat d) as i. intros i.
  do 16 (destruct i as [|i]; [simpl; set_solver|]).
  simpl. set_solver.
Qed.

Lemma hex_char_not_separator (c : ascii) (d : N) :
  separator c = true → Ascii.eqb (hex_char d) c = false.
Proof.
  intros Hc. pose proof (hex_char_cases d) as H.
  apply Ascii.eqb_neq. intros E. rewrite E in H. clear E.
  repeat (apply elem_of_cons in H as [E|H]; [by rewrite E in Hc|]).
  by apply elem_of_nil in H.
Qed.

Lemma hex_digits_no_separator (c : ascii) (k : nat) (n : N) (acc : string) :
  separator c = true →
  contains_char c acc = false → contains_char c (hex_digits k n acc) = false.
Proof.
  intros Hc. revert n acc. induction k as [|k IH]; intros n acc H; simpl; [done|].
  apply IH. simpl. by rewrite hex_char_not_separator.
Qed.

Lemma uuid_str_no_separator (c : ascii) (n : N) :
  separator c = true → contains_char c (uuid_str n) = false.
Proof.
  intros Hc. unfold uuid_str. cbv zeta.
  assert (contains_char c (hex32 n) = false) as H
    by (by apply hex_digits_no_separator).
  assert (contains_char c "-" = false) as Hd.
  { cbn [contains_char]. destruct (Ascii.eqb "-" c) eqn:E; [|done].
    apply Ascii.eqb_eq in E as <-. by vm_compute in Hc. }
  rewrite !contains_char_app, !contains_char_substring, Hd by done. done.
Qed.

Lemma uuid_str_not_empty (n : N) : uuid_str n ≠ "".
Proof. intros E. pose proof (length_uuid_str n) as H. by rewrite E in H. Qed.

Lemma no_slash_not_absolute (s : string) :
  contains_char "/" s = false → starts_with "/" s = false.
Proof.
  destruct s as [|a s]; [done|]. cbn [contains_char starts_with].
  rewrite (Ascii.eqb_sym "/" a). by destruct (Ascii.eqb a "/").
Qed.

(** ** Facts about records *)

Lemma lookup_model_dump (item : Item) (k : string) :
  model_dump item !! k =
  if decide (k = "name") then Some (VStr (name item))
  else if decide (k = "description") then Some (from_option VStr VNone (description item))
  else if decide (k = "price") then Some (VFloat (price item))
  else if decide (k = "tax") then Some (from_option VFloat VNone (tax item))
  else None.
Proof.
  unfold model_dump. repeat case_decide; subst; simplify_map_eq; done.
Qed.

Lemma lookup_with_id (item_id : string) (d : gmap string value) (k : string) :
  with_id item_id d !! k =
  match d !! k with
  | Some v => Some v
  | None => if decide (k = "id") then Some (VStr item_id) else None
  end.
Proof.
  unfold with_id. rewrite lookup_union.
  destruct (d !! k) as [v|] eqn:E; simpl.
  - by destruct ({["id" := VStr item_id]} !! k).
  - case_decide; subst; simplify_map_eq; done.
Qed.

Lemma with_id_model_dump_id (item_id : string) (item : Item) :
  with_id item_id (model_dump item) !! "id" = Some (VStr item_id).
Proof. by rewrite lookup_with_id, lookup_model_dump. Qed.

Lemma dom_with_id_model_dump (item_id : string) (item : Item) :
  dom (with_id item_id (model_dump item)) =
  ({["id"; "name"; "description"; "price"; "tax"]} : gset string).
Proof.
  unfold with_id, model_dump. rewrite dom_union_L, !dom_insert_L, dom_empty_L.
  rewrite dom_singleton_L. set_solver.
Qed.

(** The loop of [patch_item] is a merge in which the body wins. *)
Lemma assign_all_union (item existing_item : gmap string value) :
  assign_all item existing_item = item ∪ existing_item.
Proof.
  unfold assign_all.
  apply (map_fold_weak_ind (λ r m, r = m ∪ existing_item)).
  - by rewrite (left_id_L ∅ (∪)).
  - intros i x m r _ ->. by rewrite insert_union_l.
Qed.

Lemma lookup_assign_all (item existing_item : gmap string value) (k : string) :
  assign_all item existing_item !! k =
  match item !! k with
  | Some v => Some v
  | None => existing_item !! k
  end.
Proof.
  rewrite assign_all_union, lookup_union.
  destruct (item !! k), (existing_item !! k); done.
Qed.

(** ** Running the registry handlers *)

Lemma read_item_found (item_id : string) (item : gmap string value) (w : World) :
  items_db w !! item_id = Some item →
  read_item item_id w = (Ret (VDict item), w).
Proof. intros H. run. by rewrite H. Qed.

Lemma read_item_missing (item_id : string) (w : World) :
  items_db w !! item_id = None →
  read_item item_id w = (Raise (HTTPException 404 "Item not found"), w).
Proof. intros H. run. by rewrite H. Qed.

Lemma delete_item_missing (item_id : string) (w : World) :
  items_db w !! item_id = None →
  delete_item item_id w = (Raise (HTTPException 404 "Item not found"), w).
Proof. intros H. run. by rewrite H. Qed.

Lemma create_item_run (item : Item) (w : World) :
  let item_id := uuid_str (uuid4_int (os_urandom (draws w))) in
  let stored := with_id item_id (model_dump item) in
  create_item item w =
  (Ret (VDict stored),
   {| items_db := <[item_id := stored]> (items_db w); uploads := uploads w;
      draws := S (draws w) |}).
Proof. done. Qed.

Lemma delete_item_found (item_id : string) (item : gmap string value) (w : World) :
  items_db w !! item_id = Some item →
  delete_item item_id w =
  (Ret (VDict {["message" := VStr "Item deleted successfully"]}),
   {| items_db := delete item_id (items_db w); uploads := uploads w;
      draws := draws w |}).
Proof. intros H. run. by rewrite H. Qed.

(** C4. For every world and every validated item, Create succeeds and
    returns the stored record, which holds the four input fields and the
    generated id and nothing else; Get on that id in the resulting world
    returns the same record. *)
Theorem create_then_get (item : Item) (w : World) :
  let item_id := uuid_str (uuid4_int (os_urandom (draws w))) in
  let stored := with_id item_id (model_dump item) in
  ∃ w',
    create_item item w = (Ret (VDict stored), w')
    ∧ items_db w' !! item_id = Some stored
    ∧ read_item item_id w' = (Ret (VDict stored), w')
    ∧ stored !! "id" = Some (VStr item_id)
    ∧ stored !! "name" = Some (VStr (name item))
    ∧ stored !! "description" = Some (from_option VStr VNone (description item))
    ∧ stored !! "price" = Some (VFloat (price item))
    ∧ stored !! "tax" = Some (from_option VFloat VNone (tax item))
    ∧ dom stored = ({["id"; "name"; "description"; "price"; "tax"]} : gset string).
Proof.
  intros item_id stored. eexists. split; [apply create_item_run|].
  assert (∀ db : gmap string (gmap string value),
            <[item_id := stored]> db !! item_id = Some stored) as Hl
    by (intros; apply lookup_insert_eq).
  split; [apply Hl|]. split; [apply read_item_found, Hl|].
  subst stored. rewrite !lookup_with_id, !lookup_model_dump.
  repeat split; first [done | apply dom_with_id_model_dump].
Qed.

(** C5. Delete answers NotFound exactly when the id is absent, and then
    changes nothing; when the id is present it removes that record only and
    returns the fixed acknowledgment, after which Get and a second Delete of
    the same id both answer NotFound. *)
Theorem delete_item_spec (item_id : string) (w : World) :
  match items_db w !! item_id with
  | None =>
      delete_item item_id w = (Raise (HTTPException 404 "Item not found"), w)
  | Some _ =>
      ∃ w',
        delete_item item_id w =
          (Ret (VDict {["message" := VStr "Item deleted successfully"]}), w')
        ∧ items_db w' = delete item_id (items_db w)
        ∧ uploads w' = uploads w
        ∧ read_item item_id w' = (Raise (HTTPException 404 "Item not found"), w')
        ∧ delete_item item_id w' = (Raise (HTTPException 404 "Item not found"), w')
  end.
Proof.
  destruct (items_db w !! item_id) as [item|] eqn:E.
  - eexists. split; [by apply (delete_item_found item_id item)|].
    split; [done|]. split; [done|]. split.
    + apply read_item_missing. apply lookup_delete_eq.
    + apply delete_item_missing. apply lookup_delete_eq.
  - by apply delete_item_missing.
Qed.

(** C10. When Get, Replace, PartialUpdate or Delete ends in an HTTP error
    (the only one they raise is NotFound), the world after the call is the
    world before it: registry, files and random draws are untouched. *)
Theorem not_found_leaves_world (ep : Endpoint) (params : list string)
    (req : Request) (w w' : World) (status : Z) (msg : string) :
  ep ∈ [EP_read_item; EP_update_item; EP_patch_item; EP_delete_item] →
  call_endpoint ep params req w = (Raise (HTTPException status msg), w') →
  w' = w.
Proof.
  intros Hep H.
  repeat (apply elem_of_cons in Hep as [->|Hep]);
    [..| by apply elem_of_nil in Hep];
    unfold call_endpoint in H; destruct (req_body req); revert H; run;
    try congruence;
    destruct (items_db w !! default "" (head params)); intros [=]; done.
Qed.

(** C3. On a world that holds [old] under [item_id]: Replace stores and
    returns exactly the five keys id, name, description, price and tax built
    from the new item, whatever keys [old] had; PartialUpdate stores and
    returns [old] with the keys of the body overwritten and every other key
    as it was; and when an optional field that is set in [old] is neither
    resupplied to Replace nor named in the PartialUpdate body, the two
    resulting records differ. *)
Theorem replace_versus_partial_update (item_id : string)
    (old body : gmap string value) (item : Item) (w : World) :
  items_db w !! item_id = Some old →
  let replaced := with_id item_id (model_dump item) in
  let merged := assign_all body old in
  (∃ w1, update_item item_id item w = (Ret (VDict replaced), w1)
         ∧ items_db w1 !! item_id = Some replaced)
  ∧ dom replaced = ({["id"; "name"; "description"; "price"; "tax"]} : gset string)
  ∧ replaced !! "id" = Some (VStr item_id)
  ∧ replaced !! "description" = Some (from_option VStr VNone (description item))
  ∧ replaced !! "tax" = Some (from_option VFloat VNone (tax item))
  ∧ (∃ w2, patch_item item_id body w = (Ret (VDict merged), w2)
           ∧ items_db w2 !! item_id = Some merged)
  ∧ (∀ k v, body !! k = Some v → merged !! k = Some v)
  ∧ (∀ k, body !! k = None → merged !! k = old !! k)
  ∧ (∀ field v,
       (field = "description" ∧ description item = None
        ∨ field = "tax" ∧ tax item = None) →
       old !! field = Some v → v ≠ VNone → body !! field = None →
       replaced ≠ merged).
Proof.
  intros Hold replaced merged.
  split; [eexists; split; [run; rewrite Hold; reflexivity | apply lookup_insert_eq]|].
  split; [apply dom_with_id_model_dump|].
  split; [apply with_id_model_dump_id|].
  split; [unfold replaced; by rewrite lookup_with_id, lookup_model_dump|].
  split; [unfold replaced; by rewrite lookup_with_id, lookup_model_dump|].
  split; [eexists; split; [run; rewrite Hold; reflexivity | apply lookup_insert_eq]|].
  split; [intros k v Hk; unfold merged; by rewrite lookup_assign_all, Hk|].
  split; [intros k Hk; unfold merged; by rewrite lookup_assign_all, Hk|].
  intros field v Hfield Hv Hset Hbody Heq.
  assert (replaced !! field = Some VNone) as Hr.
  { unfold replaced. rewrite lookup_with_id, lookup_model_dump.
    destruct Hfield as [[-> ->]|[-> ->]]; done. }
  assert (merged !! field = Some v) as Hm.
  { unfold merged. by rewrite lookup_assign_all, Hbody. }
  rewrite Heq, Hm in Hr. congruence.
Qed.

(** ** The directory of uploads *)

Lemma os_path_join_uploads (s : string) :
  starts_with "/" s = false → os_path_join "uploads" s = "uploads/" +:+ s.
Proof. intros H. unfold os_path_join. by rewrite H. Qed.

Lemma append_cons (a : ascii) (s t : string) :
  String a s +:+ t = String a (s +:+ t).
Proof. done. Qed.

Lemma append_nil (t : string) : "" +:+ t = t.
Proof. done. Qed.

Lemma in_uploads_entry (s : string) : in_uploads ("uploads/" +:+ s) = Some s.
Proof.
  rewrite !append_cons, append_nil. unfold in_uploads.
  cbn [starts_with String.length substring].
  rewrite !Ascii.eqb_refl. cbn [andb].
  replace (S (S (S (S (S (S (S (S (String.length s)))))))) - 8)
    with (String.length s) by lia.
  by rewrite substring_all.
Qed.

Lemma uuid_str_app_not_absolute (n : N) (s : string) :
  starts_with "/" (uuid_str n +:+ s) = false.
Proof.
  pose proof (uuid_str_no_separator "/" n eq_refl) as H.
  pose proof (uuid_str_not_empty n) as Hne.
  destruct (uuid_str n) as [|a t]; [done|].
  rewrite append_cons. cbn [contains_char starts_with] in *.
  rewrite (Ascii.eqb_sym "/" a).
  destruct (Ascii.eqb a "/"); done.
Qed.

Lemma upload_file_run (file : UploadFile) (w : World) :
  let stored := stored_name (draws w) file in
  let dir := default ∅ (uploads w) in
  upload_file file w =
  if accepts stored
  then (Ret (uploaded_answer stored file),
        {| items_db := items_db w;
           uploads := Some (<[stored := content file]> dir);
           draws := S (draws w) |})
  else (Raise (open_error stored dir ("uploads/" +:+ stored)),
        {| items_db := items_db w; uploads := Some dir; draws := S (draws w) |}).
Proof.
  intros stored dir. subst stored dir. unfold stored_name, uploaded_answer.
  run_fs. rewrite os_path_join_uploads by apply uuid_str_app_not_absolute.
  rewrite in_uploads_entry. by destruct (accepts _).
Qed.

(** Whether [os.path.exists] holds of the entry [fname] of [uploads]. *)
Lemma download_file_run (fname : string) (w : World) :
  starts_with "/" fname = false →
  download_file fname w =
  if match uploads w with
     | Some dir => names_directory fname || bool_decide (is_Some (dir !! fname))
     | None => false
     end
  then (Ret {| fr_path := "uploads/" +:+ fname;
               fr_media_type := "application/octet-stream";
               fr_filename := fname |}, w)
  else (Raise (HTTPException 404 "File not found"), w).
Proof.
  intros H. run_fs. rewrite os_path_join_uploads, in_uploads_entry by done.
  destruct (uploads w) as [dir|]; cbn; [|done].
  by destruct (names_directory fname || bool_decide (is_Some (dir !! fname))).
Qed.

Lemma is_dot_short (s : string) : is_dot s = true → (String.length s ≤ 2)%nat.
Proof.
  unfold is_dot. intros [H|H]%orb_true_iff; apply String.eqb_eq in H as ->;
    cbn; lia.
Qed.

Lemma stored_name_not_dot (n : nat) (file : UploadFile) :
  is_dot (stored_name n file) = false.
Proof.
  destruct (is_dot (stored_name n file)) eqn:E; [|done].
  apply is_dot_short in E. unfold stored_name in E.
  rewrite length_app_string, length_uuid_str in E. lia.
Qed.

Lemma names_directory_segment (fname : string) :
  fname ≠ "" → names_directory fname = is_dot fname.
Proof. intros H%String.eqb_neq. unfold names_directory. by rewrite H. Qed.

Lemma stored_name_is_entry (n : nat) (file : UploadFile) :
  names_directory (stored_name n file) = false.
Proof.
  rewrite names_directory_segment; [apply stored_name_not_dot|].
  intros E. pose proof (stored_name_not_dot n file) as H.
  assert (String.length (stored_name n file) = 0) as Hl by by rewrite E.
  unfold stored_name in Hl. rewrite length_app_string, length_uuid_str in Hl. lia.
Qed.

(** C6. Save writes the bytes of the file into the uploads directory under
    [<token>.<extension>] and reports that name: the token is the
    36-character identifier of the current random draw and holds no dot, the
    extension is what follows the last dot of the original name, or nothing
    when it has no dot.  When the file system accepts the entry, the world
    after the call holds the uploaded bytes under the stored name in a
    directory that is otherwise as before (created when it was missing), and
    the answer carries the stored name, the original name and the success
    message; otherwise the call fails with the error of [open], nothing
    being written.  For [report.pdf] the stored name is the token followed
    by [.pdf], and the token is not [report]. *)
Theorem upload_file_stored_name (file : UploadFile) (data : list byte) (w : World) :
  let token := uuid_str (uuid4_int (os_urandom (draws w))) in
  let stored := stored_name (draws w) file in
  let dir := default ∅ (uploads w) in
  stored = token +:+ "." +:+ ext_spec (filename file)
  ∧ String.length token = 36
  ∧ contains_char "." token = false
  ∧ upload_file file w =
      (if accepts stored
       then (Ret (uploaded_answer stored file),
             {| items_db := items_db w;
                uploads := Some (<[stored := content file]> dir);
                draws := S (draws w) |})
       else (Raise (open_error stored dir ("uploads/" +:+ stored)),
             {| items_db := items_db w; uploads := Some dir;
                draws := S (draws w) |}))
  ∧ uploaded_answer stored file =
      VDict (<["filename" := VStr stored]>
             (<["original_filename" := VStr (filename file)]>
             (<["message" := VStr "File uploaded successfully"]> ∅)))
  ∧ stored_name (draws w) {| filename := "report.pdf"; content := data |} =
      token +:+ ".pdf"
  ∧ token ≠ "report".
Proof.
  intros token stored dir.
  split; [unfold stored, stored_name; by rewrite file_ext_ext_spec|].
  split; [apply length_uuid_str|].
  split; [by apply uuid_str_no_separator|].
  split; [apply upload_file_run|].
  split; [done|]. split; [done|].
  intros E. pose proof (length_uuid_str (uuid4_int (os_urandom (draws w)))) as H.
  fold token in H. by rewrite E in H.
Qed.

(** C8. The file List operation always succeeds and leaves the world as it
    is: it returns the names of the entries of the uploads directory, each
    once, and the empty list when the directory does not exist. *)
Theorem list_files_spec (w : World) :
  let names := match uploads w with
               | Some dir => (map_to_list dir).*1
               | None => []
               end in
  list_files w = (Ret (VDict {["files" := VList (VStr <$> names)]}), w)
  ∧ NoDup names
  ∧ ∀ n, n ∈ names ↔ is_Some (uploads w ≫= (λ dir, dir !! n)).
Proof.
  intros names. subst names. run_fs.
  destruct (uploads w) as [dir|]; cbn.
  - split; [done|]. split; [apply NoDup_fst_map_to_list|].
    intros n. rewrite list_elem_of_fmap. split.
    + intros ([k v] & -> & H). apply elem_of_map_to_list in H. by eexists.
    + intros [v H]. exists (n, v). split; [done|]. by apply elem_of_map_to_list.
  - split; [done|]. split; [constructor|].
    intros n. split; [by intros H%elem_of_nil | by intros [? ?]].
Qed.

Lemma upload_each_cons (file : UploadFile) (rest : list UploadFile)
    (acc : list value) (w : World) (dir : gmap string (list byte)) :
  uploads w = Some dir →
  upload_each (file :: rest) acc w =
  if accepts (stored_name (draws w) file)
  then upload_each rest
         (acc ++ [uploaded_entry (stored_name (draws w) file) file])
         {| items_db := items_db w;
            uploads := Some (<[stored_name (draws w) file := content file]> dir);
            draws := S (draws w) |}
  else (Raise (open_error (stored_name (draws w) file) dir
                 ("uploads/" +:+ stored_name (draws w) file)),
        {| items_db := items_db w; uploads := Some dir; draws := S (draws w) |}).
Proof.
  intros Hdir. cbn [upload_each].
  unfold mbind, M_bind, uuid4, open_wb_write. cbn.
  rewrite os_path_join_uploads by apply uuid_str_app_not_absolute.
  rewrite in_uploads_entry, Hdir. fold (stored_name (draws w) file).
  by destruct (accepts (stored_name (draws w) file)).
Qed.

Lemma without_message_answer (stored : string) (file : UploadFile) :
  without_message (uploaded_answer stored file) = uploaded_entry stored file.
Proof.
  unfold without_message, uploaded_answer, uploaded_entry.
  rewrite !delete_insert_ne by done. by rewrite delete_insert_eq, delete_empty.
Qed.

(** The loop of [upload_multiple_files] does what Save does, file by file. *)
Lemma upload_each_save_each (files : list UploadFile) (acc : list value)
    (w : World) (dir : gmap string (list byte)) :
  uploads w = Some dir →
  upload_each files acc w =
  match save_each files w with
  | (Ret entries, w') => (Ret (acc ++ entries)%list, w')
  | (Raise e, w') => (Raise e, w')
  end.
Proof.
  revert acc w dir. induction files as [|file rest IH]; intros acc w dir Hdir.
  - cbn. by rewrite app_nil_r.
  - rewrite (upload_each_cons _ _ _ _ dir) by done.
    cbn [save_each]. unfold mbind, M_bind. rewrite upload_file_run, Hdir.
    cbn [default]. destruct (accepts (stored_name (draws w) file)); [|done].
    erewrite IH by reflexivity.
    destruct (save_each rest _) as [[entries|e] w']; [|done].
    unfold mret, M_ret. by rewrite without_message_answer, <- app_assoc.
Qed.

Lemma upload_each_accepted (files : list UploadFile) (acc : list value)
    (w : World) (dir : gmap string (list byte)) :
  uploads w = Some dir →
  forallb accepts (stored_names (draws w) files) = true →
  upload_each files acc w =
  (Ret (acc ++ zip_with uploaded_entry (stored_names (draws w) files) files)%list,
   {| items_db := items_db w;
      uploads := Some (foldl (λ d nf, <[nf.1 := content nf.2]> d) dir
                         (zip (stored_names (draws w) files) files));
      draws := draws w + length files |}).
Proof.
  revert acc w dir. induction files as [|file rest IH]; intros acc w dir Hdir Hacc.
  - cbn. rewrite app_nil_r, Nat.add_0_r, <- Hdir. by destruct w.
  - rewrite (upload_each_cons _ _ _ _ dir) by done.
    cbn [stored_names forallb] in Hacc.
    apply andb_true_iff in Hacc as [Hfile Hacc]. rewrite Hfile.
    erewrite IH; [|reflexivity|exact Hacc]. cbn.
    by rewrite <- app_assoc, Nat.add_succ_r.
Qed.

Lemma upload_each_refused (files : list UploadFile) (acc : list value)
    (w : World) (dir : gmap string (list byte)) :
  uploads w = Some dir →
  forallb accepts (stored_names (draws w) files) = false →
  ∃ e w', upload_each files acc w = (Raise e, w').
Proof.
  revert acc w dir. induction files as [|file rest IH]; intros acc w dir Hdir Hacc.
  - done.
  - rewrite (upload_each_cons _ _ _ _ dir) by done.
    cbn [stored_names forallb] in Hacc.
    destruct (accepts (stored_name (draws w) file)); [|by eauto].
    by eapply IH.
Qed.

(** C9. SaveMultiple creates the directory and then does what Save does to
    each file of the sequence, in input order, with the next random draw
    each: its answer and the world it leaves are those of running Save on
    the files one after the other, the answer holding, under the key
    uploaded_files, the stored and the original name of each Save answer.
    When the file system accepts every name, there is exactly one entry per
    input file, in input order, every file is written under its stored name,
    and one draw per file is consumed; otherwise the call fails. *)
Theorem upload_multiple_files_spec (files : list UploadFile) (w : World) :
  let names := stored_names (draws w) files in
  let entries := zip_with uploaded_entry names files in
  let dir := default ∅ (uploads w) in
  upload_multiple_files files w =
    (saved ← (makedirs_uploads;; save_each files);
     mret (VDict {["uploaded_files" := VList saved]})) w
  ∧ length entries = length files
  ∧ (∀ i file, files !! i = Some file →
       entries !! i = Some (uploaded_entry (stored_name (draws w + i) file) file))
  ∧ (if forallb accepts names
     then upload_multiple_files files w =
          (Ret (VDict {["uploaded_files" := VList entries]}),
           {| items_db := items_db w;
              uploads := Some (foldl (λ d nf, <[nf.1 := content nf.2]> d) dir
                                 (zip names files));
              draws := draws w + length files |})
     else ∃ e w', upload_multiple_files files w = (Raise e, w')).
Proof.
  intros names entries dir. subst names entries dir.
  assert (∀ n, length (stored_names n files) = length files) as Hlen.
  { induction files as [|f rest IH]; intros n; cbn; [done | by rewrite IH]. }
  set (w0 := {| items_db := items_db w; uploads := Some (default ∅ (uploads w));
                draws := draws w |}).
  split.
  { unfold upload_multiple_files, mbind, M_bind, makedirs_uploads. fold w0.
    rewrite (upload_each_save_each files [] w0 _ eq_refl).
    by destruct (save_each files w0) as [[saved|e] w']. }
  split; [rewrite length_zip_with; rewrite Hlen; lia|].
  split.
  - clear Hlen w0. generalize (draws w) as n.
    induction files as [|f rest IH]; intros n i file Hi.
    + by rewrite lookup_nil in Hi.
    + destruct i as [|i]; cbn in *.
      * injection Hi as ->. by rewrite Nat.add_0_r.
      * replace (n + S i) with (S n + i) by lia. exact (IH (S n) i file Hi).
  - unfold upload_multiple_files, mbind, M_bind, makedirs_uploads. fold w0.
    destruct (forallb accepts (stored_names (draws w) files)) eqn:Hacc.
    + by rewrite (upload_each_accepted files [] w0 _ eq_refl Hacc).
    + destruct (upload_each_refused files [] w0 _ eq_refl Hacc) as (e & w' & ->).
      by eauto.
Qed.

(** ** One request at a time *)

Lemma json_world (m : M value) (w : World) : (json m w).2 = (m w).2.
Proof. unfold json, mbind, M_bind. by destruct (m w) as [[v|e] w']. Qed.

Lemma filter_items_world (name : option string) (min_price : option float)
    (items : list (gmap string value)) (w : World) :
  (filter_items name min_price items w).2 = w.
Proof.
  induction items as [|item items IH]; [done|].
  cbn [filter_items].
  unfold search_condition, getattr_dict, raise.
  destruct name, min_price; unfold mbind, M_bind, mret, M_ret; cbn; try done.
  by destruct (filter_items None None items w) as [[l|e] w'].
Qed.

Lemma search_items_world (name : option string) (min_price : option float)
    (w : World) :
  (search_items name min_price w).2 = w.
Proof.
  unfold search_items, mbind, M_bind, get_items_db.
  pose proof (filter_items_world name min_price (map_to_list (items_db w)).*2 w) as H.
  by destruct (filter_items _ _ _ w) as [[l|e] w'].
Qed.

Lemma upload_each_items_db (files : list UploadFile) (acc : list value) (w : World) :
  items_db (upload_each files acc w).2 = items_db w.
Proof.
  revert acc w. induction files as [|file rest IH]; intros acc w; [done|].
  cbn [upload_each]. unfold mbind, M_bind, uuid4, open_wb_write. cbn.
  destruct (in_uploads _); [|done].
  destruct (uploads w); [|done].
  destruct (accepts _); [|done]. cbn. by rewrite IH.
Qed.

Lemma upload_multiple_files_items_db (files : list UploadFile) (w : World) :
  items_db (upload_multiple_files files w).2 = items_db w.
Proof.
  unfold upload_multiple_files, mbind, M_bind, makedirs_uploads.
  match goal with |- context [upload_each files [] ?w0] =>
    pose proof (upload_each_items_db files [] w0) as H;
    destruct (upload_each files [] w0) as [[l|e] w'] end; done.
Qed.

Lemma upload_file_items_db (file : UploadFile) (w : World) :
  items_db (upload_file file w).2 = items_db w.
Proof. rewrite upload_file_run. by destruct (accepts _). Qed.

Lemma download_file_world (fname : string) (w : World) :
  (download_file fname w).2 = w.
Proof. run_fs. by destruct (match in_uploads _ with Some _ => _ | None => _ end). Qed.

Lemma list_files_world (w : World) : (list_files w).2 = w.
Proof. run_fs. by destruct (uploads w). Qed.

Lemma call_endpoint_step (ep : Endpoint) (params : list string) (req : Request)
    (w : World) :
  registry_step (req_body req) (items_db w)
    (items_db (call_endpoint ep params req w).2).
Proof.
  unfold call_endpoint. set (item_id := default "" (head params)).
  destruct ep, (req_body req) as [|item|d|file|[|file files]] eqn:Hbody;
    try apply step_same; rewrite ?json_world.
  all: try (run; destruct (items_db w !! item_id) eqn:E; cbn;
            by eauto using registry_step).
  all: try (run; by eauto using registry_step).
  all: try (destruct (valid_search_query _ _); [|apply step_same];
            rewrite json_world, search_items_world; apply step_same).
  all: try (rewrite upload_file_items_db; apply step_same).
  all: try (rewrite upload_multiple_files_items_db; apply step_same).
  all: try (unfold mbind, M_bind;
            pose proof (download_file_world item_id w) as Hd;
            destruct (download_file _ w) as [[r|e] w']; cbn in *; subst;
            apply step_same).
  all: rewrite list_files_world; apply step_same.
Qed.

Lemma handle_step (req : Request) (w : World) :
  registry_step (req_body req) (items_db w) (items_db (handle req w).2).
Proof.
  unfold handle. destruct (resolve _ _ _ _) as [ep params| |]; try apply step_same.
  pose proof (call_endpoint_step ep params req w) as H.
  by destruct (call_endpoint ep params req w).
Qed.

(** Every key of a reachable registry is a generated identifier. *)
Lemma reachable_key_length (w : World) (key : string) :
  reachable w → is_Some (items_db w !! key) → String.length key = 36.
Proof.
  intros Hw. revert key. induction Hw as [w Hstart|req w Hw IH]; intros key.
  - rewrite Hstart, lookup_empty. by intros [? ?].
  - destruct (handle_step req w) as [|n item|k old item Hk|k old d _ Hk|k].
    + apply IH.
    + destruct (decide (uuid_str n = key)) as [<-|Hne].
      * intros _. apply length_uuid_str.
      * rewrite lookup_insert_ne by done. apply IH.
    + destruct (decide (k = key)) as [<-|Hne].
      * intros _. apply IH. by eexists.
      * rewrite lookup_insert_ne by done. apply IH.
    + destruct (decide (k = key)) as [<-|Hne].
      * intros _. apply IH. by eexists.
      * rewrite lookup_insert_ne by done. apply IH.
    + destruct (decide (k = key)) as [<-|Hne].
      * rewrite lookup_delete_eq. by intros [? ?].
      * rewrite lookup_delete_ne by done. apply IH.
Qed.

(** A request leaves the invariant in place unless it is a partial update
    whose body names the key [id]. *)
Lemma handle_keeps_id_is_key (req : Request) (w : World) :
  id_is_key (items_db w) →
  (∀ d, req_body req = DictBody d → d !! "id" = None) →
  id_is_key (items_db (handle req w).2).
Proof.
  intros Hinv Hbody.
  destruct (handle_step req w) as [|n item|k old item Hk|k old d Hd Hk|k];
    [done|..]; intros key it.
  - destruct (decide (uuid_str n = key)) as [<-|Hne].
    + rewrite lookup_insert_eq. intros [= <-].
      split; [apply with_id_model_dump_id | apply uuid_str_not_empty].
    + rewrite lookup_insert_ne by done. apply Hinv.
  - destruct (decide (k = key)) as [<-|Hne].
    + rewrite lookup_insert_eq. intros [= <-].
      split; [apply with_id_model_dump_id | by apply (Hinv k old)].
    + rewrite lookup_insert_ne by done. apply Hinv.
  - destruct (decide (k = key)) as [<-|Hne].
    + rewrite lookup_insert_eq. intros [= <-].
      rewrite lookup_assign_all, (Hbody d Hd). by apply Hinv.
    + rewrite lookup_insert_ne by done. apply Hinv.
  - destruct (decide (k = key)) as [<-|Hne].
    + by rewrite lookup_delete_eq.
    + rewrite lookup_delete_ne by done. apply Hinv.
Qed.

(** X11. On every reachable world a GET of [/items/search], whatever its
    query parameters and body, is answered 404 Item not found and changes
    nothing: [/items/search] is registered after [/items/{item_id}], so the
    request is served by [read_item] with the id [search], which no
    reachable registry holds. *)
Lemma search_request_not_found (req : Request) (w : World) :
  req_method req = GET → req_path req = "/items/search" → reachable w →
  handle req w = (JSONResponse 404 (detail "Item not found"), w).
Proof.
  intros Hm Hp Hw. unfold handle. rewrite Hm, Hp.
  change (resolve routes GET "/items/search" false)
    with (Matched EP_read_item ["search"]).
  assert (items_db w !! "search" = None) as Hnone.
  { destruct (items_db w !! "search") eqn:E; [|done].
    pose proof (reachable_key_length w "search" Hw) as H.
    rewrite E in H. by specialize (H (mk_is_Some _ _ eq_refl)). }
  cbv iota beta.
  change (call_endpoint EP_read_item ["search"] req w)
    with (json (read_item "search") w).
  assert (json (read_item "search") w =
          (Raise (HTTPException 404 "Item not found"), w)) as ->
    by (run; by rewrite Hnone).
  done.
Qed.

Lemma filter_items_no_filter (items : list (gmap string value)) (w : World) :
  filter_items None None items w = (Ret (VDict <$> items), w).
Proof.
  induction items as [|item items IH]; [done|].
  cbn [filter_items]. unfold search_condition.
  unfold mbind, M_bind, mret, M_ret in *. cbn. by rewrite IH.
Qed.

(** Were [search_items] reached, any filter would fail on the first stored
    record: the records are dicts, and the comprehension reads [item.name]
    and [item.price] as attributes. *)
Lemma search_items_attribute_error (name : option string)
    (min_price : option float) (w : World) :
  items_db w ≠ ∅ →
  search_items name min_price w =
  match name, min_price with
  | Some _, _ => (Raise (AttributeError "name"), w)
  | None, Some _ => (Raise (AttributeError "price"), w)
  | None, None => (Ret (VList (VDict <$> (map_to_list (items_db w)).*2)), w)
  end.
Proof.
  intros Hne. unfold search_items, mbind, M_bind, get_items_db.
  destruct ((map_to_list (items_db w)).*2) as [|item items] eqn:E.
  { apply fmap_nil_inv in E. by apply map_to_list_empty_iff in E. }
  destruct name, min_price.
  4: by rewrite filter_items_no_filter.
  all: cbn [filter_items]; unfold search_condition, getattr_dict, raise;
    unfold mbind, M_bind, mret, M_ret; done.
Qed.

Lemma id_matches_spec (key : string) (item : gmap string value) :
  id_matches key item = true ↔ item !! "id" = Some (VStr key) ∧ key ≠ "".
Proof.
  unfold id_matches. destruct (item !! "id") as [[| | |s| |]|]; try by split; [|intros [[=] _]].
  rewrite andb_true_iff, negb_true_iff, String.eqb_eq, String.eqb_neq.
  split; [by intros [-> ?] | by intros [[= ->] ?]].
Qed.

Lemma id_is_keyb_spec (db : gmap string (gmap string value)) :
  id_is_keyb db = true ↔ id_is_key db.
Proof.
  unfold id_is_keyb, id_is_key. rewrite forallb_forall. split.
  - intros H key item Hl. apply id_matches_spec.
    apply (H (key, item)), list_elem_of_In. by apply elem_of_map_to_list.
  - intros H [key item] Hin%list_elem_of_In%elem_of_map_to_list.
    apply id_matches_spec. by apply H.
Qed.

(** ** Through the router *)

Local Arguments Ascii.eqb : simpl nomatch.
Local Arguments String.eqb : simpl nomatch.

Lemma split_on_prefix_items (seg : string) :
  contains_char "/" seg = false →
  split_on "/" ("/items/" +:+ seg) = [""; "items"; seg].
Proof.
  intros H. rewrite !append_cons, append_nil. cbn.
  by rewrite (split_on_no_sep "/" seg H).
Qed.

Lemma split_on_prefix_download (seg : string) :
  contains_char "/" seg = false →
  split_on "/" ("/download/" +:+ seg) = [""; "download"; seg].
Proof.
  intros H. rewrite !append_cons, append_nil. cbn.
  by rewrite (split_on_no_sep "/" seg H).
Qed.

(** A non-empty segment below [/items] selects the handler by the method
    alone; this includes the segment [search]. *)
Lemma resolve_item (m : Method) (seg : string) :
  contains_char "/" seg = false → seg ≠ "" →
  resolve routes m ("/items/" +:+ seg) false =
  match m with
  | GET => Matched EP_read_item [seg]
  | PUT => Matched EP_update_item [seg]
  | PATCH => Matched EP_patch_item [seg]
  | DELETE => Matched EP_delete_item [seg]
  | POST => MethodNotAllowed
  end.
Proof.
  intros H Hne. unfold resolve, routes, path_match.
  rewrite split_on_prefix_items by done.
  apply String.eqb_neq in Hne. cbn. rewrite Hne.
  destruct ("search" =? seg)%string; by destruct m.
Qed.

Lemma resolve_download (seg : string) :
  contains_char "/" seg = false → seg ≠ "" →
  resolve routes GET ("/download/" +:+ seg) false =
  Matched EP_download_file [seg].
Proof.
  intros H Hne. unfold resolve, routes, path_match.
  rewrite split_on_prefix_download by done.
  apply String.eqb_neq in Hne. cbn. by rewrite Hne.
Qed.

(** Create and then Get, as the client sees them: the record is stored in
    any case, and both answers are 500 when it cannot be encoded as JSON. *)
Lemma served_create_then_get (item : Item) (w : World) :
  let item_id := uuid_str (uuid4_int (os_urandom (draws w))) in
  let stored := with_id item_id (model_dump item) in
  let answer := if json_encodable (VDict stored)
                then JSONResponse 200 (VDict stored)
                else InternalServerError in
  ∃ w',
    handle (request POST "/items" (ItemBody item)) w = (answer, w')
    ∧ items_db w' !! item_id = Some stored
    ∧ handle (request GET ("/items/" +:+ item_id) NoBody) w' = (answer, w').
Proof.
  intros item_id stored answer.
  set (w' := {| items_db := <[item_id := stored]> (items_db w);
                uploads := uploads w; draws := S (draws w) |}).
  assert (create_item item w = (Ret (VDict stored), w')) as Hc
    by apply create_item_run.
  assert (read_item item_id w' = (Ret (VDict stored), w')) as Hr
    by apply read_item_found, lookup_insert_eq.
  exists w'. split; [|split; [apply lookup_insert_eq|]].
  - unfold handle. cbn [req_method req_path request].
    change (resolve routes POST "/items" false) with (Matched EP_create_item []).
    cbv iota beta.
    change (call_endpoint EP_create_item [] (request POST "/items" (ItemBody item)) w)
      with (json (create_item item) w).
    unfold json, mbind, M_bind. by rewrite Hc.
  - unfold handle. cbn [req_method req_path request].
    rewrite resolve_item
      by (by apply uuid_str_no_separator || apply uuid_str_not_empty).
    change (call_endpoint EP_read_item [item_id]
              (request GET ("/items/" +:+ item_id) NoBody) w')
      with (json (read_item item_id) w').
    unfold json, mbind, M_bind. by rewrite Hr.
Qed.

(** Delete, then Get and Delete again, as the client sees them. *)
Lemma served_delete_twice (item_id : string) (item : gmap string value) (w : World) :
  contains_char "/" item_id = false → item_id ≠ "" →
  items_db w !! item_id = Some item →
  let path := "/items/" +:+ item_id in
  let not_found := JSONResponse 404 (detail "Item not found") in
  ∃ w',
    handle (request DELETE path NoBody) w =
      (JSONResponse 200 (VDict {["message" := VStr "Item deleted successfully"]}), w')
    ∧ handle (request GET path NoBody) w' = (not_found, w')
    ∧ handle (request DELETE path NoBody) w' = (not_found, w').
Proof.
  intros Hseg Hne Hitem path not_found.
  pose proof (delete_item_found item_id item w Hitem) as Hd.
  set (w' := {| items_db := delete item_id (items_db w); uploads := uploads w;
                draws := draws w |}) in *.
  assert (items_db w' !! item_id = None) as Hgone by apply lookup_delete_eq.
  pose proof (read_item_missing item_id w' Hgone) as Hg.
  pose proof (delete_item_missing item_id w' Hgone) as Hd'.
  exists w'. unfold handle. cbn [req_method req_path request]. subst path.
  rewrite !resolve_item by done.
  change (call_endpoint EP_delete_item [item_id] ?r ?v)
    with (json (delete_item item_id) v).
  change (call_endpoint EP_read_item [item_id] ?r ?v)
    with (json (read_item item_id) v).
  unfold json, mbind, M_bind. by rewrite Hd, Hg, Hd'.
Qed.

(** X18. A GET of [/download/<name>], for a non-empty name without a
    slash, leaves the world as it is and is answered: with 404 File not
    found when there is no uploads directory or when it holds no entry of
    that name; with the bytes of the entry, the media type
    application/octet-stream and the name as suggested file name when it
    holds one; and with a 500 for the names [.] and [..], which exist in
    every directory and are not files. *)
Lemma served_download (fname : string) (w : World) :
  contains_char "/" fname = false → fname ≠ "" →
  handle (request GET ("/download/" +:+ fname) NoBody) w =
  (match uploads w with
   | None => JSONResponse 404 (detail "File not found")
   | Some dir =>
       if is_dot fname then InternalServerError
       else match dir !! fname with
            | Some data => FileBytes "application/octet-stream" fname data
            | None => JSONResponse 404 (detail "File not found")
            end
   end, w).
Proof.
  intros Hseg Hne. unfold handle. cbn [req_method req_path request].
  rewrite resolve_download by done.
  change (call_endpoint EP_download_file [fname] ?r ?v)
    with ((x ← download_file fname; mret (RFile x)) v).
  unfold mbind, M_bind.
  rewrite download_file_run by by apply no_slash_not_absolute.
  destruct (uploads w) as [dir|] eqn:Hdir; [|done].
  pose proof (names_directory_segment fname Hne) as Hnames.
  rewrite Hnames. destruct (is_dot fname) eqn:Hdot; cbn -[read_bytes].
  - unfold read_bytes. by rewrite in_uploads_entry, Hdir, Hnames.
  - destruct (dir !! fname) as [data|] eqn:E; cbn -[read_bytes]; [|done].
    unfold read_bytes. by rewrite in_uploads_entry, Hdir, Hnames, E.
Qed.

(** ** Further properties of the registry handlers *)

(** X1. Starting from a registry that satisfies the invariant, serving any
    list of requests in which no body is a dict with the key [id] leaves a
    registry in which every record still has a non-empty [id] equal to its
    key. *)
Theorem serve_all_keeps_id_is_key (reqs : list Request) (w : World) :
  id_is_key (items_db w) →
  forallb (λ req, negb (names_id (req_body req))) reqs = true →
  id_is_key (items_db (serve_all reqs w)).
Proof.
  revert w. induction reqs as [|req reqs IH]; intros w Hinv Hreqs; [done|].
  cbn in Hreqs. apply andb_true_iff in Hreqs as [Hreq Hreqs].
  unfold serve_all. cbn [foldl]. apply IH; [|done].
  apply handle_keeps_id_is_key; [done|].
  intros d Hd. rewrite Hd in Hreq. cbn in Hreq.
  apply negb_true_iff, bool_decide_eq_false in Hreq.
  destruct (d !! "id") eqn:E; [|done]. destruct Hreq. by eexists.
Qed.

(** X2. Get, Replace, PartialUpdate and Delete of an id that the registry
    does not hold all raise the HTTP error 404 Item not found and leave the
    world as it is. *)
Theorem absent_id_is_not_found (item_id : string) (item : Item)
    (body : gmap string value) (w : World) :
  items_db w !! item_id = None →
  let not_found := (Raise (HTTPException 404 "Item not found"), w) in
  read_item item_id w = not_found
  ∧ update_item item_id item w = not_found
  ∧ patch_item item_id body w = not_found
  ∧ delete_item item_id w = not_found.
Proof. intros H. run. by rewrite H. Qed.

(** X3. Replace, PartialUpdate and Delete of one id leave the record stored
    under every other key, and the uploads directory, as they were. *)
Theorem registry_operations_frame (item_id key : string) (item : Item)
    (body : gmap string value) (w : World) :
  key ≠ item_id →
  items_db (update_item item_id item w).2 !! key = items_db w !! key
  ∧ items_db (patch_item item_id body w).2 !! key = items_db w !! key
  ∧ items_db (delete_item item_id w).2 !! key = items_db w !! key
  ∧ uploads (update_item item_id item w).2 = uploads w
  ∧ uploads (patch_item item_id body w).2 = uploads w
  ∧ uploads (delete_item item_id w).2 = uploads w.
Proof.
  intros Hne. run. destruct (items_db w !! item_id) eqn:E; cbn;
    rewrite ?lookup_insert_ne, ?lookup_delete_ne by done; done.
Qed.

(** X4. Create adds the generated id to the keys of the registry and
    changes no record stored under another key.  It does not check whether
    the id is already in use: the registry grows by one record when the id
    is new, and keeps its size, the old record being replaced, when it is
    not. *)
Theorem create_item_registry (item : Item) (w : World) :
  let item_id := uuid_str (uuid4_int (os_urandom (draws w))) in
  let db' := items_db (create_item item w).2 in
  dom db' = {[item_id]} ∪ dom (items_db w)
  ∧ (∀ key, key ≠ item_id → db' !! key = items_db w !! key)
  ∧ size db' =
      (if bool_decide (is_Some (items_db w !! item_id))
       then size (items_db w) else S (size (items_db w)))
  ∧ uploads (create_item item w).2 = uploads w
  ∧ draws (create_item item w).2 = S (draws w).
Proof.
  intros item_id db'. subst db'. rewrite create_item_run. cbn. fold item_id.
  split; [apply dom_insert_L|].
  split; [intros key Hne; by rewrite lookup_insert_ne|].
  split; [|done]. case_bool_decide as H.
  - by apply map_size_insert_Some.
  - apply map_size_insert_None. by apply eq_None_not_Some.
Qed.

(** X5. PartialUpdate is idempotent: sending the same body again returns the
    same answer and leaves the world of the first call.  With an empty body it
    returns the stored record and changes nothing. *)
Theorem patch_item_idempotent (item_id : string) (body : gmap string value)
    (w : World) :
  let w1 := (patch_item item_id body w).2 in
  patch_item item_id body w1 = ((patch_item item_id body w).1, w1)
  ∧ patch_item item_id ∅ w =
    (match items_db w !! item_id with
     | Some existing => Ret (VDict existing)
     | None => Raise (HTTPException 404 "Item not found")
     end, w).
Proof.
  run. destruct (items_db w !! item_id) as [existing|] eqn:E; cbn.
  - rewrite lookup_insert_eq. cbn. rewrite insert_insert_eq.
    rewrite !assign_all_union, (assoc_L (∪)), (idemp_L (∪)).
    rewrite (left_id_L ∅ (∪)), (insert_id (items_db w) item_id existing E).
    by destruct w.
  - by rewrite E.
Qed.

(** X6. Replace forgets an earlier PartialUpdate of the same id: Replace
    after PartialUpdate gives the answer and the registry that Replace alone
    gives.  Replace is idempotent as well. *)
Theorem update_item_overrides (item_id : string) (item : Item)
    (body : gmap string value) (w : World) :
  update_item item_id item (patch_item item_id body w).2 =
    update_item item_id item w
  ∧ update_item item_id item (update_item item_id item w).2 =
    update_item item_id item w.
Proof.
  run. destruct (items_db w !! item_id) as [existing|] eqn:E; cbn.
  - by rewrite !lookup_insert_eq, !insert_insert_eq.
  - by rewrite E.
Qed.

(** X7. List returns every stored record once per key under which it is
    stored, and nothing else, without changing the world: the list has as
    many entries as the registry has keys, and a record is in it exactly
    when some key holds it. *)
Theorem read_items_lists_registry (w : World) :
  ∃ records,
    read_items w = (Ret (VList (VDict <$> records)), w)
    ∧ length records = size (items_db w)
    ∧ ∀ item, item ∈ records ↔ ∃ key, items_db w !! key = Some item.
Proof.
  exists (map_to_list (items_db w)).*2. split; [done|].
  split; [by rewrite length_fmap, length_map_to_list|].
  intros item. rewrite list_elem_of_fmap. split.
  - intros ([key it] & -> & H). exists key. by apply elem_of_map_to_list.
  - intros [key H]. exists (key, item). split; [done|].
    by apply elem_of_map_to_list.
Qed.

(** X19. When the generated id is not yet a key, Create followed by Delete
    of the returned id gives the registry back as it was. *)
Theorem create_then_delete (item : Item) (w : World) :
  let item_id := uuid_str (uuid4_int (os_urandom (draws w))) in
  items_db w !! item_id = None →
  items_db (delete_item item_id (create_item item w).2).2 = items_db w.
Proof.
  intros item_id Hfresh. rewrite create_item_run. fold item_id.
  rewrite (delete_item_found item_id (with_id item_id (model_dump item)))
    by apply lookup_insert_eq.
  cbn. by rewrite delete_insert_eq, delete_id.
Qed.

(** ** Further properties of the router *)

Lemma search_path_is_item_path (path : string) (ps : list string) :
  path_match "/items/search" path = Some ps →
  path_match "/items/{item_id}" path = Some ["search"].
Proof.
  unfold path_match. generalize (split_on "/" path) as segs. intros segs.
  cbn. destruct segs as [|s0 [|s1 [|s2 [|s3 rest]]]]; cbn;
    repeat match goal with
           | |- context [if ?b then _ else _] => destruct b eqn:?
           end;
    try done.
  all: repeat match goal with
              | H : (_ =? _)%string = true |- _ =>
                  apply String.eqb_eq in H; subst
              end; done.
Qed.

(** X8. No request is ever handed to [search_items]: whatever the method
    and the path, the router does not select the endpoint of
    [/items/search], because every path that matches it also matches
    [/items/{item_id}], which is registered before it with the same method. *)
Theorem search_items_never_dispatched (m : Method) (path : string)
    (params : list string) :
  resolve routes m path false ≠ Matched EP_search_items params.
Proof.
  pose proof (search_path_is_item_path path) as Hshadow.
  unfold routes. cbn [resolve].
  destruct m; cbn [Method_eqb];
    repeat match goal with
           | |- context [match path_match ?p ?q with _ => _ end] =>
               let E := fresh "E" in destruct (path_match p q) eqn:E
           end;
    try discriminate.
  by specialize (Hshadow _ eq_refl).
Qed.

(** X9. Below [/items] and [/download] the handler is chosen by the method
    alone: for a non-empty segment without a slash, GET, PUT, PATCH and
    DELETE of [/items/<segment>] reach [read_item], [update_item],
    [patch_item] and [delete_item] with the segment as the id, POST is
    answered 405, and GET of [/download/<segment>] reaches [download_file]. *)
Theorem segment_dispatch (m : Method) (seg : string) :
  contains_char "/" seg = false → seg ≠ "" →
  resolve routes m ("/items/" +:+ seg) false =
    match m with
    | GET => Matched EP_read_item [seg]
    | PUT => Matched EP_update_item [seg]
    | PATCH => Matched EP_patch_item [seg]
    | DELETE => Matched EP_delete_item [seg]
    | POST => MethodNotAllowed
    end
  ∧ resolve routes GET ("/download/" +:+ seg) false =
    Matched EP_download_file [seg].
Proof.
  intros H Hne. split; [by apply resolve_item | by apply resolve_download].
Qed.



(** X12. Called on a registry, [search_items] returns every record when no
    filter is given and the empty list when the registry is empty; with a
    filter and a non-empty registry it raises on the first record, reading
    the attribute [name], or [price] when only the price filter is given.
    It never changes the world. *)
Theorem search_items_outcome (name : option string) (min_price : option float)
    (w : World) :
  search_items name min_price w =
  (if bool_decide (items_db w = ∅) then Ret (VList [])
   else match name, min_price with
        | Some _, _ => Raise (AttributeError "name")
        | None, Some _ => Raise (AttributeError "price")
        | None, None => Ret (VList (VDict <$> (map_to_list (items_db w)).*2))
        end, w).
Proof.
  case_bool_decide as Hdb.
  - unfold search_items, mbind, M_bind, get_items_db.
    by rewrite Hdb, map_to_list_empty.
  - rewrite search_items_attribute_error by done.
    by destruct name, min_price.
Qed.

(** ** Further properties of the file handlers *)

Lemma last_split_no_sep (sep : ascii) (s : string) :
  contains_char sep (last_item (split_on sep s)) = false.
Proof.
  induction s as [|a s IH]; [done|]. cbn [split_on].
  destruct (Ascii.eqb a sep) eqn:E.
  - destruct (split_on_cons sep s) as (h & t & Hs). rewrite Hs in *.
    by rewrite last_item_cons.
  - destruct (split_on_cons sep s) as (h & t & Hs). rewrite Hs in *.
    destruct t as [|x t]; [|by rewrite last_item_cons in *].
    unfold last_item in *. cbn in *. by rewrite E.
Qed.

Lemma split_on_rejoin (sep : ascii) (s : string) :
  contains_char sep s = true →
  ∃ pre, s = pre +:+ String sep (last_item (split_on sep s)).
Proof.
  induction s as [|a s IH]; [done|]. cbn [contains_char split_on].
  destruct (Ascii.eqb a sep) eqn:E.
  - intros _. apply Ascii.eqb_eq in E as ->.
    destruct (contains_char sep s) eqn:C.
    + destruct (IH eq_refl) as [pre Hpre].
      destruct (split_on_cons sep s) as (h & t & Hs). rewrite Hs in *.
      rewrite last_item_cons. exists (String sep pre).
      rewrite append_cons. by rewrite <- Hpre.
    + rewrite split_on_no_sep by done. by exists "".
  - intros C. destruct (IH C) as [pre Hpre].
    destruct (split_on_two sep s C) as (h & x & t & Hs). rewrite Hs in *.
    rewrite !last_item_cons in *. exists (String a pre).
    rewrite append_cons. by rewrite <- Hpre.
Qed.

(** X13. The extension that the upload handlers take from a file name holds
    no dot; when the name has a dot, the name is some prefix, a dot and that
    extension, and when it has none the extension is empty. *)
Theorem file_ext_decomposition (fname : string) :
  contains_char "." (file_ext fname) = false
  ∧ (if contains_char "." fname
     then ∃ pre, fname = pre +:+ "." +:+ file_ext fname
     else file_ext fname = "").
Proof.
  unfold file_ext. destruct (contains_char "." fname) eqn:C.
  - split; [apply last_split_no_sep|]. by apply split_on_rejoin.
  - done.
Qed.

(** X14. Whenever [upload_file] succeeds, the name it reports is the name
    under which the uploads directory then holds the uploaded bytes, and
    that name keeps the extension of the original name, holds no slash and
    is neither [.] nor [..]. *)
Theorem stored_name_keeps_extension (file : UploadFile) (w w' : World)
    (answer : value) :
  upload_file file w = (Ret answer, w') →
  ∃ stored,
    answer = uploaded_answer stored file
    ∧ uploads w' ≫= (λ dir, dir !! stored) = Some (content file)
    ∧ file_ext stored = file_ext (filename file)
    ∧ contains_char "/" stored = false
    ∧ is_dot stored = false.
Proof.
  rewrite upload_file_run.
  destruct (accepts (stored_name (draws w) file)) eqn:Hacc; [|done].
  intros [= <- <-]. exists (stored_name (draws w) file).
  split; [done|]. split; [cbn; apply lookup_insert_eq|]. split.
  - unfold stored_name. apply file_ext_after_last_dot.
    unfold file_ext. destruct (contains_char "." (filename file)); [|done].
    apply last_split_no_sep.
  - split; [|apply stored_name_not_dot].
    unfold accepts in Hacc.
    apply andb_true_iff in Hacc as [[_ Hs]%andb_true_iff _].
    by apply negb_true_iff in Hs.
Qed.

(** X20. After an upload that the file system accepts, retrieving the
    stored name gives the uploaded bytes back, with the media type
    application/octet-stream and the stored name as suggested file name,
    and changes nothing. *)
Theorem upload_then_download (file : UploadFile) (w : World) :
  let stored := stored_name (draws w) file in
  accepts stored = true →
  let w1 := (upload_file file w).2 in
  let response := {| fr_path := "uploads/" +:+ stored;
                     fr_media_type := "application/octet-stream";
                     fr_filename := stored |} in
  download_file stored w1 = (Ret response, w1)
  ∧ render (Ret (RFile response)) w1 =
    FileBytes "application/octet-stream" stored (content file).
Proof.
  intros stored Hacc w1 response. subst w1.
  rewrite upload_file_run. fold stored. rewrite Hacc. cbn [snd]. split.
  - rewrite download_file_run by apply uuid_str_app_not_absolute.
    cbn. rewrite lookup_insert_eq.
    by rewrite bool_decide_true, orb_true_r by by eexists.
  - unfold render, read_bytes. cbn [fr_path response].
    rewrite in_uploads_entry. cbn.
    unfold stored. by rewrite stored_name_is_entry, lookup_insert_eq.
Qed.

Lemma list_files_run (w : World) :
  list_files w =
  (Ret (VDict {["files" :=
     VList (VStr <$> match uploads w with
                     | Some dir => (map_to_list dir).*1
                     | None => []
                     end)]}), w).
Proof. run_fs. by destruct (uploads w). Qed.

Lemma elem_of_entry_names (dir : gmap string (list byte)) (n : string) :
  n ∈ (map_to_list dir).*1 ↔ is_Some (dir !! n).
Proof.
  rewrite list_elem_of_fmap. split.
  - intros ([k v] & -> & H). apply elem_of_map_to_list in H. by eexists.
  - intros [v H]. exists (n, v). split; [done|]. by apply elem_of_map_to_list.
Qed.

(** X15. After an upload that the file system accepts, the listing holds the
    stored name and the names that were there before, and nothing else; the
    stored name holds the uploaded bytes and the other files keep theirs.
    The registry is not touched. *)
Theorem upload_then_list (file : UploadFile) (w : World) :
  let stored := stored_name (draws w) file in
  accepts stored = true →
  let w1 := (upload_file file w).2 in
  ∃ names,
    list_files w1 = (Ret (VDict {["files" := VList (VStr <$> names)]}), w1)
    ∧ (∀ n, n ∈ names ↔ n = stored ∨ is_Some (uploads w ≫= (λ dir, dir !! n)))
    ∧ uploads w1 ≫= (λ dir, dir !! stored) = Some (content file)
    ∧ (∀ n, n ≠ stored →
         uploads w1 ≫= (λ dir, dir !! n) = uploads w ≫= (λ dir, dir !! n))
    ∧ items_db w1 = items_db w.
Proof.
  intros stored Hacc w1. subst w1. rewrite upload_file_run. fold stored.
  rewrite Hacc. cbn [snd]. eexists. split; [apply list_files_run|]. cbn.
  split; [|split; [apply lookup_insert_eq|split; [|done]]].
  - intros n. rewrite elem_of_entry_names.
    destruct (decide (n = stored)) as [->|Hne].
    + rewrite lookup_insert_eq. split; [by left | by eexists].
    + rewrite lookup_insert_ne by done.
      destruct (uploads w) as [dir|]; cbn; [|rewrite lookup_empty];
        (split; [by right | by intros [?|?]]).
  - intros n Hne. rewrite lookup_insert_ne by done.
    by destruct (uploads w).
Qed.

Lemma upload_each_other_entries (files : list UploadFile) (acc : list value)
    (w : World) (dir : gmap string (list byte)) (entry : string) :
  uploads w = Some dir →
  entry ∉ stored_names (draws w) files →
  uploads (upload_each files acc w).2 ≫= (λ d, d !! entry) = dir !! entry.
Proof.
  revert acc w dir. induction files as [|file rest IH]; intros acc w dir Hdir Hnot.
  - cbn. by rewrite Hdir.
  - cbn [stored_names] in Hnot. apply not_elem_of_cons in Hnot as [Hne Hnot].
    rewrite (upload_each_cons _ _ _ _ dir) by done.
    destruct (accepts (stored_name (draws w) file)).
    + erewrite IH; [|done|done]. by rewrite lookup_insert_ne.
    + done.
Qed.

Lemma upload_each_written (files : list UploadFile) (acc : list value)
    (w : World) (dir : gmap string (list byte)) (j : nat) (file : UploadFile) :
  uploads w = Some dir →
  files !! j = Some file →
  forallb accepts (take (S j) (stored_names (draws w) files)) = true →
  stored_name (draws w + j) file ∉ drop (S j) (stored_names (draws w) files) →
  uploads (upload_each files acc w).2
    ≫= (λ d, d !! stored_name (draws w + j) file) = Some (content file).
Proof.
  revert acc w dir j.
  induction files as [|f rest IH]; intros acc w dir j Hdir Hj Hacc Hnot.
  - by rewrite lookup_nil in Hj.
  - rewrite (upload_each_cons _ _ _ _ dir) by done.
    cbn [stored_names take forallb] in Hacc.
    apply andb_true_iff in Hacc as [Hf Hacc]. rewrite Hf.
    destruct j as [|j]; cbn in Hj.
    + injection Hj as ->. rewrite Nat.add_0_r in *.
      cbn [stored_names drop] in Hnot.
      erewrite upload_each_other_entries; [|done|done].
      apply lookup_insert_eq.
    + replace (draws w + S j) with (S (draws w) + j) in * by lia.
      cbn [stored_names drop] in Hnot.
      exact (IH _ {| items_db := items_db w;
                     uploads := Some (<[stored_name (draws w) f := content f]> dir);
                     draws := S (draws w) |} _ j eq_refl Hj Hacc Hnot).
Qed.

(** X16. SaveMultiple does not roll back: a file of the batch whose name,
    and the names before it, the file system accepted is in the uploads
    directory with its bytes after the call, whether or not a later file
    made the call fail, unless a later file of the batch was given the same
    stored name. *)
Theorem upload_multiple_keeps_written_files (files : list UploadFile)
    (j : nat) (file : UploadFile) (w : World) :
  let names := stored_names (draws w) files in
  let stored := stored_name (draws w + j) file in
  files !! j = Some file →
  forallb accepts (take (S j) names) = true →
  stored ∉ drop (S j) names →
  uploads (upload_multiple_files files w).2 ≫= (λ d, d !! stored) =
  Some (content file).
Proof.
  intros names stored Hj Hacc Hnot.
  unfold upload_multiple_files, mbind, M_bind, makedirs_uploads.
  pose proof (upload_each_written files []
    {| items_db := items_db w; uploads := Some (default ∅ (uploads w));
       draws := draws w |} _ j file eq_refl Hj Hacc Hnot) as H.
  cbn [draws] in H. fold stored in H.
  by destruct (upload_each files [] _) as [[l|e] w'].
Qed.

(** ** What each endpoint can change *)

Lemma registry_handlers_keep_uploads (item_id : string) (item : Item)
    (body : gmap string value) (w : World) :
  uploads (create_item item w).2 = uploads w
  ∧ (uploads (update_item item_id item w).2 = uploads w
     ∧ draws (update_item item_id item w).2 = draws w)
  ∧ (uploads (patch_item item_id body w).2 = uploads w
     ∧ draws (patch_item item_id body w).2 = draws w)
  ∧ (uploads (delete_item item_id w).2 = uploads w
     ∧ draws (delete_item item_id w).2 = draws w).
Proof. run. by destruct (items_db w !! item_id). Qed.

Lemma read_only_endpoint_world (ep : Endpoint) (params : list string)
    (req : Request) (w : World) :
  ep ∈ [EP_read_root; EP_read_items; EP_read_item; EP_search_items;
        EP_download_file; EP_list_files] →
  (call_endpoint ep params req w).2 = w.
Proof.
  intros Hep. unfold call_endpoint. set (item_id := default "" (head params)).
  repeat (apply elem_of_cons in Hep as [->|Hep]);
    [..| by apply elem_of_nil in Hep]; rewrite ?json_world; try done.
  - run. by destruct (items_db w !! item_id).
  - destruct (valid_search_query _ _); [|done].
    by rewrite json_world, search_items_world.
  - unfold mbind, M_bind. pose proof (download_file_world item_id w) as H.
    by destruct (download_file item_id w) as [[r|e] w'].
  - apply list_files_world.
Qed.

(** X17. The two stores are kept apart and only three endpoints draw random
    bytes: a request changes the registry only through Create, Replace,
    PartialUpdate or Delete, changes the uploads directory only through the
    two upload endpoints, and consumes random draws only through Create and
    the two upload endpoints. *)
Theorem endpoint_effects (ep : Endpoint) (params : list string)
    (req : Request) (w : World) :
  let w' := (call_endpoint ep params req w).2 in
  (ep ∉ [EP_create_item; EP_update_item; EP_patch_item; EP_delete_item] →
   items_db w' = items_db w)
  ∧ (ep ∉ [EP_upload_file; EP_upload_multiple_files] → uploads w' = uploads w)
  ∧ (ep ∉ [EP_create_item; EP_upload_file; EP_upload_multiple_files] →
     draws w' = draws w).
Proof.
  intros w'. subst w'.
  pose proof (λ item body, registry_handlers_keep_uploads
                (default "" (head params)) item body w) as Hreg.
  destruct ep;
    try (rewrite read_only_endpoint_world by (by repeat constructor); done);
    unfold call_endpoint;
    destruct (req_body req) as [|item|d|file|[|file files]];
    rewrite ?json_world;
    (split; [|split]); intros Hnot;
    try (destruct Hnot; by repeat constructor); try done.
  all: try (by destruct (Hreg item ∅) as (? & [? ?] & [? ?] & [? ?])).
  all: try (by destruct (Hreg widget d) as (? & [? ?] & [? ?] & [? ?])).
  all: try (by destruct (Hreg widget ∅) as (? & [? ?] & [? ?] & [? ?])).
  all: try apply upload_file_items_db.
  all: try apply upload_multiple_files_items_db.
Qed.

End App.

(** ** The handlers on concrete requests *)

(** C1. On the registry that holds the widget, a GET of [/items/search]
    with the valid filter [name=widget] should return the widget; the router
    hands the request to [read_item] with the id [search] and the client
    receives 404 Item not found, the world being left as it was.  Reached
    directly, [search_items] would raise on the first record. *)
Theorem search_route_is_shadowed :
  let serve := handle counting_urandom no_slash in
  let w := (serve create_widget empty_world).2 in
  reachable counting_urandom no_slash w
  ∧ valid_search_query (query_name search_widget) (query_min_price search_widget) = true
  ∧ search_spec (Some "widget") None (items_db w) =
      [VDict (with_id first_id (model_dump widget))]
  ∧ resolve routes GET "/items/search" false = Matched EP_read_item ["search"]
  ∧ serve search_widget w = (JSONResponse 404 (detail "Item not found"), w)
  ∧ search_items (Some "widget") None w = (Raise (AttributeError "name"), w).
Proof.
  intros serve w.
  split; [apply reachable_handle, reachable_start; reflexivity|].
  split; [reflexivity|].
  split; [vm_compute; reflexivity|].
  split; [reflexivity|].
  split; [vm_compute; reflexivity|].
  vm_compute; reflexivity.
Qed.

(** C2. After Create of the widget, a PATCH of that item with the body
    [{"id": "other"}] is served without error, and the reachable registry it
    leaves holds, under the generated key, a record whose [id] is [other]:
    the invariant is broken. *)
Theorem partial_update_breaks_id_is_key :
  let serve := handle counting_urandom no_slash in
  let w1 := (serve create_widget empty_world).2 in
  let w2 := (serve rename_id w1).2 in
  reachable counting_urandom no_slash w2
  ∧ id_is_key (items_db w1)
  ∧ (serve rename_id w1).1 = JSONResponse 200 (VDict renamed_record)
  ∧ items_db w2 !! first_id = Some renamed_record
  ∧ renamed_record !! "id" = Some (VStr "other")
  ∧ ¬ id_is_key (items_db w2).
Proof.
  intros serve w1 w2.
  split; [do 2 apply reachable_handle; by apply reachable_start|].
  split; [apply id_is_keyb_spec; vm_compute; reflexivity|].
  split; [vm_compute; reflexivity|].
  split; [vm_compute; reflexivity|].
  split; [vm_compute; reflexivity|].
  intros H%id_is_keyb_spec. vm_compute in H. discriminate.
Qed.

(** C7. On a world whose uploads directory holds the single file [a.txt],
    nothing that is a file exists at [uploads/.], yet Retrieve of the name
    [.] does not fail with NotFound: [os.path.exists] holds of the directory
    itself, the handler returns a FileResponse for it, no bytes can be sent
    and the client receives a 500.  The same happens for [..].  For a name
    that is not there the answer is 404, and for [a.txt] it is the file. *)
Theorem download_of_dot_fails :
  let serve := handle counting_urandom no_slash in
  let w := one_file_world in
  uploads w ≫= (λ dir, dir !! ".") = None
  ∧ download_file "." w =
      (Ret {| fr_path := "uploads/."; fr_media_type := "application/octet-stream";
              fr_filename := "." |}, w)
  ∧ serve (request GET "/download/." NoBody) w = (InternalServerError, w)
  ∧ serve (request GET "/download/.." NoBody) w = (InternalServerError, w)
  ∧ serve (request GET "/download/b.txt" NoBody) w =
      (JSONResponse 404 (detail "File not found"), w)
  ∧ serve (request GET "/download/a.txt" NoBody) w =
      (FileBytes "application/octet-stream" "a.txt" [x68; x69]%byte, w).
Proof.
  intros serve w. repeat split; vm_compute; reflexivity.
Qed.

(** ** The theorems at concrete inputs *)

Lemma create_then_get_witness :
  ∃ w', create_item counting_urandom widget empty_world =
          (Ret (VDict (with_id first_id (model_dump widget))), w')
        ∧ read_item first_id w' =
          (Ret (VDict (with_id first_id (model_dump widget))), w').
Proof.
  destruct (create_then_get counting_urandom widget empty_world)
    as (w' & Hc & _ & Hr & _).
  exists w'. split; [exact Hc | exact Hr].
Defined.

Lemma not_found_leaves_world_witness :
  EP_delete_item ∈ [EP_read_item; EP_update_item; EP_patch_item; EP_delete_item]
  ∧ call_endpoint counting_urandom no_slash EP_delete_item ["k2"]
      (request DELETE "/items/k2" NoBody) widget_world =
    (Raise (HTTPException 404 "Item not found"), widget_world)
  ∧ widget_world = widget_world.
Proof.
  assert (EP_delete_item ∈
          [EP_read_item; EP_update_item; EP_patch_item; EP_delete_item]) as Hin
    by (do 3 apply list_elem_of_further; apply list_elem_of_here).
  assert (call_endpoint counting_urandom no_slash EP_delete_item ["k2"]
            (request DELETE "/items/k2" NoBody) widget_world =
          (Raise (HTTPException 404 "Item not found"), widget_world)) as Hcall
    by (vm_compute; reflexivity).
  split; [exact Hin|]. split; [exact Hcall|].
  exact (not_found_leaves_world counting_urandom no_slash _ _ _ _ _ _ _ Hin Hcall).
Defined.

Lemma replace_versus_partial_update_witness :
  items_db widget_world !! "k1" = Some widget_record
  ∧ with_id "k1" (model_dump widget_bare) ≠ assign_all new_price widget_record.
Proof.
  assert (items_db widget_world !! "k1" = Some widget_record) as Hold
    by reflexivity.
  split; [exact Hold|].
  destruct (replace_versus_partial_update "k1" widget_record new_price
              widget_bare widget_world Hold) as (_ & _ & _ & _ & _ & _ & _ & _ & Hdiff).
  apply (Hdiff "description" (VStr "a widget")).
  - left. split; reflexivity.
  - reflexivity.
  - discriminate.
  - reflexivity.
Defined.


Lemma delete_item_spec_witness :
  ∃ w', delete_item "k1" widget_world =
          (Ret (VDict {["message" := VStr "Item deleted successfully"]}), w')
        ∧ read_item "k1" w' = (Raise (HTTPException 404 "Item not found"), w')
        ∧ delete_item "k1" w' = (Raise (HTTPException 404 "Item not found"), w').
Proof.
  destruct (delete_item_spec "k1" widget_world) as (w' & Hd & _ & _ & Hg & Hd').
  exists w'. split; [exact Hd|]. split; [exact Hg | exact Hd'].
Defined.

Lemma upload_file_stored_name_witness :
  upload_file counting_urandom no_slash report_pdf empty_world =
    (Ret (uploaded_answer (first_id +:+ ".pdf") report_pdf),
     {| items_db := ∅;
        uploads := Some (<[first_id +:+ ".pdf" := content report_pdf]> ∅);
        draws := 1 |})
  ∧ first_id ≠ "report".
Proof.
  destruct (upload_file_stored_name counting_urandom no_slash report_pdf []
              empty_world) as (_ & _ & _ & Hup & _ & _ & Hne).
  split; [exact Hup | exact Hne].
Defined.

Lemma list_files_spec_witness :
  list_files empty_world = (Ret (VDict {["files" := VList []]}), empty_world).
Proof.
  destruct (list_files_spec empty_world) as (H & _). exact H.
Defined.

Lemma upload_multiple_files_spec_witness :
  upload_multiple_files counting_urandom no_slash [report_pdf; notes_txt]
    empty_world =
  (Ret (VDict {["uploaded_files" :=
     VList [uploaded_entry (first_id +:+ ".pdf") report_pdf;
            uploaded_entry (stored_name counting_urandom 1 notes_txt) notes_txt]]}),
   {| items_db := ∅;
      uploads := Some (<[stored_name counting_urandom 1 notes_txt :=
                           content notes_txt]>
                       (<[first_id +:+ ".pdf" := content report_pdf]> ∅));
      draws := 2 |}).
Proof.
  destruct (upload_multiple_files_spec counting_urandom no_slash
              [report_pdf; notes_txt] empty_world) as (_ & _ & _ & H).
  exact H.
Defined.

(** ** The further properties at concrete inputs *)

Lemma serve_all_keeps_id_is_key_witness :
  id_is_key (items_db empty_world)
  ∧ forallb (λ req, negb (names_id (req_body req)))
      [create_widget; request DELETE "/items/k1" NoBody; create_widget] = true
  ∧ id_is_key (items_db (serve_all counting_urandom no_slash
      [create_widget; request DELETE "/items/k1" NoBody; create_widget]
      empty_world)).
Proof.
  assert (id_is_key (items_db empty_world)) as Hinv
    by (apply id_is_keyb_spec; reflexivity).
  assert (forallb (λ req, negb (names_id (req_body req)))
            [create_widget; request DELETE "/items/k1" NoBody; create_widget]
          = true) as Hreqs by reflexivity.
  split; [exact Hinv|]. split; [exact Hreqs|].
  exact (serve_all_keeps_id_is_key counting_urandom no_slash _ _ Hinv Hreqs).
Defined.

Lemma absent_id_is_not_found_witness :
  items_db widget_world !! "k2" = None
  ∧ update_item "k2" widget_bare widget_world =
    (Raise (HTTPException 404 "Item not found"), widget_world).
Proof.
  assert (items_db widget_world !! "k2" = None) as H by reflexivity.
  split; [exact H|].
  destruct (absent_id_is_not_found "k2" widget_bare new_price widget_world H)
    as (_ & Hu & _). exact Hu.
Defined.

Lemma registry_operations_frame_witness :
  "k1" ≠ "k2"
  ∧ items_db (delete_item "k2" widget_world).2 !! "k1" =
    items_db widget_world !! "k1".
Proof.
  assert ("k1" ≠ "k2") as H by discriminate.
  split; [exact H|].
  destruct (registry_operations_frame "k2" "k1" widget_bare new_price
              widget_world H) as (_ & _ & Hd & _). exact Hd.
Defined.

Lemma segment_dispatch_witness :
  contains_char "/" "k1" = false ∧ "k1" ≠ ""
  ∧ resolve routes PATCH "/items/k1" false = Matched EP_patch_item ["k1"].
Proof.
  assert (contains_char "/" "k1" = false) as H by reflexivity.
  assert ("k1" ≠ "") as Hne by discriminate.
  split; [exact H|]. split; [exact Hne|].
  destruct (segment_dispatch PATCH "k1" H Hne) as [Hr _]. exact Hr.
Defined.


Lemma search_request_not_found_witness :
  req_method search_widget = GET
  ∧ req_path search_widget = "/items/search"
  ∧ reachable counting_urandom no_slash empty_world
  ∧ handle counting_urandom no_slash search_widget empty_world =
    (JSONResponse 404 (detail "Item not found"), empty_world).
Proof.
  assert (reachable counting_urandom no_slash empty_world) as Hw
    by (apply reachable_start; reflexivity).
  split; [reflexivity|]. split; [reflexivity|]. split; [exact Hw|].
  exact (search_request_not_found counting_urandom no_slash search_widget
           empty_world eq_refl eq_refl Hw).
Defined.

Lemma upload_then_list_witness :
  accepts no_slash (stored_name counting_urandom 0 report_pdf) = true
  ∧ uploads (upload_file counting_urandom no_slash report_pdf empty_world).2
      ≫= (λ dir, dir !! stored_name counting_urandom 0 report_pdf)
    = Some (content report_pdf).
Proof.
  assert (accepts no_slash (stored_name counting_urandom 0 report_pdf) = true)
    as Hacc by (vm_compute; reflexivity).
  split; [exact Hacc|].
  destruct (upload_then_list counting_urandom no_slash report_pdf empty_world
              Hacc) as (names & _ & _ & Hstored & _).
  exact Hstored.
Defined.

Lemma upload_multiple_keeps_written_files_witness :
  [report_pdf; notes_slashed] !! 0 = Some report_pdf
  ∧ forallb (accepts no_slash)
      (take 1 (stored_names counting_urandom 0 [report_pdf; notes_slashed]))
    = true
  ∧ (stored_name counting_urandom 0 report_pdf
       ∉ drop 1 (stored_names counting_urandom 0 [report_pdf; notes_slashed]))
  ∧ (upload_multiple_files counting_urandom no_slash
       [report_pdf; notes_slashed] empty_world).1 =
    Raise (FileNotFoundError
             ("uploads/" +:+ stored_name counting_urandom 1 notes_slashed))
  ∧ uploads (upload_multiple_files counting_urandom no_slash
       [report_pdf; notes_slashed] empty_world).2
      ≫= (λ d, d !! stored_name counting_urandom 0 report_pdf)
    = Some (content report_pdf).
Proof.
  assert ([report_pdf; notes_slashed] !! 0 = Some report_pdf) as Hj
    by reflexivity.
  assert (forallb (accepts no_slash)
            (take 1 (stored_names counting_urandom 0 [report_pdf; notes_slashed]))
          = true) as Hacc by (vm_compute; reflexivity).
  assert (stored_name counting_urandom 0 report_pdf
            ∉ drop 1 (stored_names counting_urandom 0 [report_pdf; notes_slashed]))
    as Hnot.
  { intros H. apply list_elem_of_singleton in H. vm_compute in H. discriminate. }
  split; [exact Hj|]. split; [exact Hacc|]. split; [exact Hnot|].
  split; [vm_compute; reflexivity|].
  exact (upload_multiple_keeps_written_files counting_urandom no_slash
           [report_pdf; notes_slashed] 0 report_pdf empty_world Hj Hacc Hnot).
Defined.

Lemma served_download_witness :
  contains_char "/" "missing.bin" = false ∧ "missing.bin" ≠ ""
  ∧ handle counting_urandom no_slash
      (request GET "/download/missing.bin" NoBody) empty_world =
    (JSONResponse 404 (detail "File not found"), empty_world).
Proof.
  assert (contains_char "/" "missing.bin" = false) as H by reflexivity.
  assert ("missing.bin" ≠ "") as Hne by discriminate.
  split; [exact H|]. split; [exact Hne|].
  exact (served_download counting_urandom no_slash "missing.bin" empty_world
           H Hne).
Defined.

Lemma create_then_delete_witness :
  items_db empty_world !! first_id = None
  ∧ items_db (delete_item first_id
      (create_item counting_urandom widget empty_world).2).2
    = items_db empty_world.
Proof.
  assert (items_db empty_world !! first_id = None) as H by reflexivity.
  split; [exact H|].
  exact (create_then_delete counting_urandom widget empty_world H).
Defined.

Lemma stored_name_keeps_extension_witness :
  upload_file counting_urandom no_slash report_pdf empty_world =
    (Ret (uploaded_answer (first_id +:+ ".pdf") report_pdf),
     {| items_db := ∅;
        uploads := Some (<[first_id +:+ ".pdf" := content report_pdf]> ∅);
        draws := 1 |})
  ∧ ∃ stored, file_ext stored = "pdf"
              ∧ uploaded_answer (first_id +:+ ".pdf") report_pdf =
                uploaded_answer stored report_pdf.
Proof.
  assert (upload_file counting_urandom no_slash report_pdf empty_world =
    (Ret (uploaded_answer (first_id +:+ ".pdf") report_pdf),
     {| items_db := ∅;
        uploads := Some (<[first_id +:+ ".pdf" := content report_pdf]> ∅);
        draws := 1 |})) as Hup by (vm_compute; reflexivity).
  split; [exact Hup|].
  destruct (stored_name_keeps_extension counting_urandom no_slash report_pdf
              empty_world _ _ Hup) as (stored & Hanswer & _ & Hext & _).
  exists stored. split; [exact Hext | exact Hanswer].
Defined.

Lemma upload_then_download_witness :
  accepts no_slash (stored_name counting_urandom 0 report_pdf) = true
  ∧ render (Ret (RFile {| fr_path := "uploads/" +:+ first_id +:+ ".pdf";
                          fr_media_type := "application/octet-stream";
                          fr_filename := first_id +:+ ".pdf" |}))
      (upload_file counting_urandom no_slash report_pdf empty_world).2 =
    FileBytes "application/octet-stream" (first_id +:+ ".pdf")
      (content report_pdf).
Proof.
  assert (accepts no_slash (stored_name counting_urandom 0 report_pdf) = true)
    as Hacc by (vm_compute; reflexivity).
  split; [exact Hacc|].
  destruct (upload_then_download counting_urandom no_slash report_pdf
              empty_world Hacc) as [_ Hbytes].
  exact Hbytes.
Defined.
